(** * Colour byte code of cen-mask: a shallow embedding of
    [src/utils/colorByteCodeUtils.ts] and the properties checked against it.

    The module prints a wire object under an image as a grid of coloured
    blocks: object -> bytes -> base-64 text -> one colour per character ->
    framed block sequence -> raster, and back.

    Numbers.  The numbers the module computes with are integers (alphabet
    indices, channel levels 0/85/170/255, bytes of an [ImageData], block
    counts), so JavaScript numbers are embedded as [Z]: [%] is the truncating
    remainder [Z.rem], [Math.floor (a / b)] on integers with [b > 0] is
    [Z.div], and [255 / (4 - 1)] is the exact integer 85.  Two exceptions:
    a read outside an [ImageData] buffer yields [undefined], which arithmetic
    turns into NaN, so a colour channel is an [option Z] with [None] for
    undefined/NaN; and the pixel coordinates of the reader are fractional,
    they are embedded as rationals ([Q]).

    Strings are [string]; [str.split('')] is [list_ascii_of_string].

    Errors.  A function that can throw returns an [outcome]: [Returns v] or
    [Throws e].

    Outside the module.  The object serializer and the base-64 codec
    ([encode], [decode], [Buffer], [window.atob]) and the constants of
    [./definition] are parameters; the canvas of [./canvasUtils] is modelled
    in [Canvas]. *)

From Stdlib Require Import ZArith List String Ascii Bool Lia QArith Qround.
Import ListNotations.
Open Scope Z_scope.
Set Warnings "-register-all".

(** ** JavaScript primitives used by the module *)

Module Js.

(** [Array.prototype.findIndex]: the index of the first element satisfying
    [p], or -1. *)
Fixpoint findIndexFrom {A : Type} (p : A -> bool) (i : Z) (l : list A) : Z :=
  match l with
  | [] => -1
  | x :: l' => if p x then i else findIndexFrom p (i + 1) l'
  end.

Definition findIndex {A : Type} (p : A -> bool) (l : list A) : Z :=
  findIndexFrom p 0 l.

(** [arr[i]]: [None] stands for [undefined] (index negative or past the end). *)
Definition index {A : Type} (l : list A) (i : Z) : option A :=
  if i <? 0 then None else nth_error l (Z.to_nat i).

(** Relative index resolution shared by [Array.prototype.slice] and
    [String.prototype.slice]: a negative index counts from the end, and the
    result is clamped to [0, len]. *)
Definition clampIndex (len k : Z) : Z :=
  if k <? 0 then Z.max (len + k) 0 else Z.min k len.

(** [arr.slice(start, end)]. *)
Definition slice {A : Type} (l : list A) (start stop : Z) : list A :=
  let len := Z.of_nat (List.length l) in
  let from := clampIndex len start in
  let to := clampIndex len stop in
  firstn (Z.to_nat (to - from)) (skipn (Z.to_nat from) l).

(** [arr.slice(start)]: up to the end. *)
Definition sliceFrom {A : Type} (l : list A) (start : Z) : list A :=
  slice l start (Z.of_nat (List.length l)).

(** [str.slice(start, end)] and [str.slice(start)]. *)
Definition strSlice (s : string) (start stop : Z) : string :=
  string_of_list_ascii (slice (list_ascii_of_string s) start stop).

Definition strSliceFrom (s : string) (start : Z) : string :=
  string_of_list_ascii (sliceFrom (list_ascii_of_string s) start).

(** [new Array(n).fill(x)] for an integer [n >= 0]
    (a negative length raises a RangeError; see the callers). *)
Definition fill {A : Type} (n : Z) (x : A) : list A := repeat x (Z.to_nat n).

End Js.

(** ** Quantizer *)

(** A channel value: [None] is [undefined] (NaN once used in arithmetic). *)
Definition chan : Type := option Z.

Definition Pixel : Type := (chan * chan * chan)%type.

Definition R_CHANNEL_PARTITION : Z := 4.
Definition G_CHANNEL_PARTITION : Z := 4.
Definition B_CHANNEL_PARTITION : Z := 4.

Definition BASE64_TABLE : list ascii :=
  list_ascii_of_string
    "ABCDEFGHIJKLMNOPQRSTUVWXYZabcdefghijklmnopqrstuvwxyz0123456789+/=".

(** [numToColor]: three base-4 digits of [code], blue lowest. *)
Definition numToColor (code : Z) : Pixel :=
  let bCode := Z.rem code B_CHANNEL_PARTITION in
  let code := code / B_CHANNEL_PARTITION in
  let gCode := Z.rem code G_CHANNEL_PARTITION in
  let code := code / G_CHANNEL_PARTITION in
  let rCode := Z.rem code R_CHANNEL_PARTITION in
  (Some (rCode * (255 / (R_CHANNEL_PARTITION - 1))),
   Some (gCode * (255 / (G_CHANNEL_PARTITION - 1))),
   Some (bCode * (255 / (B_CHANNEL_PARTITION - 1)))).

(** [diff > preDiff] on numbers that may be NaN: false as soon as one is. *)
Definition gtNum (a b : chan) : bool :=
  match a, b with
  | Some x, Some y => x >? y
  | _, _ => false
  end.

(** The [for] loop of [getNearIndex].  [n] bounds the iterations still to run;
    the loop itself stops on [i >= partition] or on the [break]. *)
Fixpoint getNearIndex_loop (n : nat) (v : chan) (partition max : Z)
    (i ret : Z) (preDiff : chan) : Z :=
  match n with
  | O => ret
  | S n' =>
      if i <? partition then
        let diff := option_map (fun v => Z.abs (i * (max / (partition - 1)) - v)) v in
        if gtNum diff preDiff then ret
        else getNearIndex_loop n' v partition max (i + 1) i diff
      else ret
  end.

(** [getNearIndex (v, partition, max)]; the loop runs [i = 0 .. partition-1],
    so [partition] iterations are all it can take. *)
Definition getNearIndexMax (v : chan) (partition max : Z) : Z :=
  getNearIndex_loop (Z.to_nat partition) v partition max 0 0 (Some max).

(** [getNearIndex (v, partition)] with the default [max = 255], the only way
    the module calls it. *)
Definition getNearIndex (v : chan) (partition : Z) : Z := getNearIndexMax v partition 255.

Definition colorToNum (color : Pixel) : Z :=
  let '(r, g, b) := color in
  let ret := getNearIndex r R_CHANNEL_PARTITION in
  let ret := ret * G_CHANNEL_PARTITION + getNearIndex g G_CHANNEL_PARTITION in
  let ret := ret * B_CHANNEL_PARTITION + getNearIndex b B_CHANNEL_PARTITION in
  ret.

(** The tie-break rule in the words of the specification (section 4.1), to be
    compared with [getNearIndex]: starting from index 0 as the best, scan the
    following indices in increasing order; accept an index, which becomes the
    best, whenever its distance to the value is at most the best distance so
    far, and stop at the first index that is strictly farther. *)
Fixpoint spec_scanLevels (v best bestDist : Z) (indices : list Z) : Z :=
  match indices with
  | [] => best
  | i :: rest =>
      let d := Z.abs (i * 85 - v) in
      if d <=? bestDist then spec_scanLevels v i d rest else best
  end.

Definition spec_nearestLevel (v : Z) : Z :=
  spec_scanLevels v 0 (Z.abs (0 * 85 - v)) [1; 2; 3].

(** ** Symbol codec *)

(** [base64CharToNum]; the module applies it to the single characters of
    [str.split('')]. *)
Definition base64CharToNum (char : ascii) : Z :=
  Js.findIndex (fun v => Ascii.eqb v char) BASE64_TABLE.

Definition base64StringToColors (str : string) : list Pixel :=
  map (fun v => numToColor (base64CharToNum v)) (list_ascii_of_string str).

(** [BASE64_TABLE[index]]; [None] is [undefined]. *)
Definition numToBase64Char (index : Z) : option ascii := Js.index BASE64_TABLE index.

(** [p + numToBase64Char(...)]: string concatenation prints [undefined] as the
    nine letters of its name. *)
Definition appendChar (p : string) (c : option ascii) : string :=
  match c with
  | Some a => p ++ String a EmptyString
  | None => p ++ "undefined"
  end.

Definition colorsToBase64String (colors : list Pixel) : string :=
  fold_left (fun p c => appendChar p (numToBase64Char (colorToNum c))) colors EmptyString.

(** ** Layout engine: framing *)

(** The block sequence [drawColorByteCodeBlock] assembles before it paints:
    four header blocks are unshifted in front of the data, then the footer
    block goes to the end of row 0.  [None] is the [null] placeholder. *)
Definition frameBlocks (colorByteCodes : list Pixel) (blockCountX : Z) : list (option Pixel) :=
  let length := Z.of_nat (List.length colorByteCodes) in
  let colorByteCodes :=
    numToColor (blockCountX / 64) :: numToColor 1 :: numToColor (Z.rem length 64)
      :: numToColor (length / 64) :: colorByteCodes in
  let len := Z.of_nat (List.length colorByteCodes) in
  if len <? blockCountX - 1 then
    map Some colorByteCodes
      ++ Js.fill (blockCountX - len - 1) None
      ++ [Some (numToColor (Z.rem blockCountX 64))]
  else
    map Some (Js.slice colorByteCodes 0 (blockCountX - 1))
      ++ [Some (numToColor (Z.rem blockCountX 64))]
      ++ map Some (Js.sliceFrom colorByteCodes (blockCountX - 1)).

(** The cut at the end of [readColorByteCode]: the data blocks among the
    sampled [colors], given the block count and the blocks per row read from
    the header. *)
Definition mainColors {A : Type} (colors : list A) (blockCount blockCountX : Z) : list A :=
  if blockCount + 4 <? blockCountX then
    Js.slice colors 4 (4 + blockCount)
  else
    Js.slice colors 4 (blockCountX - 1) ++ Js.sliceFrom colors blockCountX.

(** ** Rasters *)

Module ImageData.

(** The browser's [ImageData]: [data] holds 4 bytes (R, G, B, A) per pixel,
    rows top to bottom. *)
Record t : Type := mk { width : Z; height : Z; data : list Z }.

End ImageData.

(** [Math.round]: to the nearest integer, halves upwards. *)
Definition round (x : Q) : Z := Qfloor (x + (1 # 2)).

(** [ImageData.prototype.getPixelColor]: no bounds check, a read outside the
    buffer gives [undefined] channels. *)
Definition getPixelColor (this : ImageData.t) (x y : Q) : Pixel :=
  let index := (round x + round y * ImageData.width this) * 4 in
  (Js.index (ImageData.data this) index,
   Js.index (ImageData.data this) (index + 1),
   Js.index (ImageData.data this) (index + 2)).

(** [0, 1, ..., n-1], the values a counting [for] loop takes. *)
Definition range (n : Z) : list Z := map Z.of_nat (seq 0 (Z.to_nat n)).

(** A sample taken at coordinates computed from [blockWidth = width / blockCountX].
    With [blockCountX = 0] the block width is Infinity (or NaN), so is every
    coordinate derived from it, the buffer index is NaN and the read is
    [undefined]. *)
Definition sampleBlock (imageData : ImageData.t) (blockCountX : Z) (x y : Q) : Pixel :=
  if blockCountX =? 0 then (None, None, None) else getPixelColor imageData x y.

Definition readColorByteCode (imageData : ImageData.t) : list Pixel :=
  let width := inject_Z (ImageData.width imageData) in
  let height := inject_Z (ImageData.height imageData) in
  let lNum := colorToNum (getPixelColor imageData 0 (height - 1)) in
  let rNum := colorToNum (getPixelColor imageData (width - 1) (height - 1)) in
  let blockCountX := lNum * 64 + rNum in
  let blockWidth := (width / inject_Z blockCountX)%Q in
  let sample := sampleBlock imageData blockCountX in
  (* the version is read and not looked at again *)
  let version :=
    colorToNum (sample (blockWidth + blockWidth / 2) (height - blockWidth / 2))%Q in
  let blockCountData :=
    map (fun v : Q * Q => colorToNum (sample (fst v) (snd v)))
      [ (blockWidth * 2 + blockWidth / 2, height - blockWidth / 2)%Q;
        (blockWidth * 3 + blockWidth / 2, height - blockWidth / 2)%Q ] in
  let blockCount := nth 0 blockCountData 0 + nth 1 blockCountData 0 * 64 in
  let colors :=
    map (fun i =>
           let x := (inject_Z (Z.rem i blockCountX) * blockWidth + blockWidth / 2)%Q in
           let y := (height - inject_Z (i / blockCountX) * blockWidth - blockWidth / 2)%Q in
           sample x y)
        (range (blockCount + 5)) in
  mainColors colors blockCount blockCountX.

(** The version symbol as [readColorByteCode] samples it (its first three
    steps: blocks per row from the two bottom corners, block width, centre of
    block 1 of row 0). *)
Definition readVersion (imageData : ImageData.t) : Z :=
  let width := inject_Z (ImageData.width imageData) in
  let height := inject_Z (ImageData.height imageData) in
  let lNum := colorToNum (getPixelColor imageData 0 (height - 1)) in
  let rNum := colorToNum (getPixelColor imageData (width - 1) (height - 1)) in
  let blockCountX := lNum * 64 + rNum in
  let blockWidth := (width / inject_Z blockCountX)%Q in
  let sample := sampleBlock imageData blockCountX in
  colorToNum (sample (blockWidth + blockWidth / 2) (height - blockWidth / 2))%Q.

(** ** Painting *)

Module Canvas.

(** Modelled from the spec: [createCanvas] of [./canvasUtils] and the 2D
    context it returns are not among the sources; section 6 of the spec gives
    the graphics collaborator as [createRaster (width, height)],
    [fillRect (raster, x, y, w, h, Pixel)] and [getPixel].  The raster is a
    grid of RGBA pixels, transparent black when created; the context carries
    the current fill style (opaque black at first).  Rectangles have integer
    corners here: a fractional rectangle would blend colours along its edges,
    which this grid does not represent. *)
Record t : Type := mk
  { width : Z; height : Z;
    pixel : Z -> Z -> Z * Z * Z * Z;
    fillStyle : Z * Z * Z }.

Definition createCanvas (width height : Z) : t :=
  mk width height (fun _ _ => (0, 0, 0, 0)) (0, 0, 0).

Definition clamp255 (c : Z) : Z := Z.max 0 (Z.min c 255).

(** [ctx.fillStyle = `rgb(r,g,b)`]: channels are clamped to [0, 255]; a string
    that is not a colour (a channel printed as [undefined]) leaves the style
    as it was. *)
Definition setFillStyle (c : t) (v : Pixel) : t :=
  match v with
  | (Some r, Some g, Some b) =>
      mk (width c) (height c) (pixel c) (clamp255 r, clamp255 g, clamp255 b)
  | _ => c
  end.

(** [ctx.fillRect (x, y, w, h)] for [w, h >= 0]: the pixels of the rectangle
    take the fill style, fully opaque. *)
Definition fillRect (c : t) (x y w h : Z) : t :=
  let '(r, g, b) := fillStyle c in
  mk (width c) (height c)
     (fun px py =>
        if (x <=? px) && (px <? x + w) && (y <=? py) && (py <? y + h)
        then (r, g, b, 255) else pixel c px py)
     (fillStyle c).

(** [ctx.getImageData (0, 0, cv.width, cv.height)]. *)
Definition getImageData (c : t) : ImageData.t :=
  ImageData.mk (width c) (height c)
    (flat_map (fun py =>
       flat_map (fun px => let '(r, g, b, a) := pixel c px py in [r; g; b; a])
                (range (width c)))
       (range (height c))).

End Canvas.

(** [Math.ceil (a / b)] on integers, [b > 0]. *)
Definition ceilDiv (a b : Z) : Z := - ((- a) / b).

(** The [forEach] of [drawColorByteCodeBlock], from index [i] on. *)
Fixpoint paintBlocks (ctx : Canvas.t) (blockCountX blockCountY blockWidth : Z)
    (i : Z) (cells : list (option Pixel)) : Canvas.t :=
  match cells with
  | [] => ctx
  | None :: rest => paintBlocks ctx blockCountX blockCountY blockWidth (i + 1) rest
  | Some v :: rest =>
      let x := Z.rem i blockCountX * blockWidth in
      let y := (blockCountY - i / blockCountX - 1) * blockWidth in
      let ctx := Canvas.setFillStyle ctx v in
      let ctx := Canvas.fillRect ctx x y (blockWidth + 1) (blockWidth + 1) in
      paintBlocks ctx blockCountX blockCountY blockWidth (i + 1) rest
  end.

(** The second half of [drawColorByteCodeBlock], from [blockCountY] on: the
    framed blocks are painted on a fresh canvas, whose pixels are returned.
    [blockWidth = width / blockCountX] is the integer quotient: the embedding
    is exact when [blockCountX] divides [width] (the properties below assume
    it), the case in which every rectangle painted has integer corners. *)
Definition paintFrame (colorByteCodes : list (option Pixel)) (blockCountX width : Z)
    : ImageData.t :=
  let blockWidth := width / blockCountX in
  let blockCountY := ceilDiv (Z.of_nat (List.length colorByteCodes)) blockCountX in
  let ctx := Canvas.createCanvas width (blockWidth * blockCountY) in
  let ctx := paintBlocks ctx blockCountX blockCountY blockWidth 0 colorByteCodes in
  Canvas.getImageData ctx.

Definition drawColorByteCodeBlock (colorByteCodes : list Pixel) (blockCountX width : Z)
    : ImageData.t :=
  paintFrame (frameBlocks colorByteCodes blockCountX) blockCountX width.

(** ** Wire objects *)

(** The JavaScript values a wire object is made of, as the object serializer
    produces them (numbers are integers on the paths studied). *)
Inductive value : Type :=
| VUndefined
| VNull
| VBool (b : bool)
| VNum (n : Z)
| VStr (s : string)
| VArr (items : list value)
| VObj (fields : list (string * value)).

(** What a call can throw: [new Error (message)] from the module itself, or
    the TypeError of reading a property of [undefined] or [null]. *)
Inductive exn : Type :=
| Error (message : string)
| TypeError.

Inductive outcome (A : Type) : Type :=
| Returns (a : A)
| Throws (e : exn).
Arguments Returns {A} a.
Arguments Throws {A} e.

Definition bind {A B : Type} (m : outcome A) (k : A -> outcome B) : outcome B :=
  match m with
  | Returns a => k a
  | Throws e => Throws e
  end.

Notation "x <- m ;; k" := (bind m (fun x => k))
  (at level 61, m at next level, right associativity).

(** Truthiness ([v ? _ : _], [!v]). *)
Definition truthy (v : value) : bool :=
  match v with
  | VUndefined | VNull => false
  | VBool b => b
  | VNum n => negb (n =? 0)
  | VStr s => negb (String.eqb s EmptyString)
  | VArr _ | VObj _ => true
  end.

Fixpoint lookupField (k : string) (fields : list (string * value)) : value :=
  match fields with
  | [] => VUndefined
  | (k', v) :: rest => if String.eqb k' k then v else lookupField k rest
  end.

(** [v.k] for the property names the module reads ([o], [g], [s], [r], [n],
    [k], [c], [length]). *)
Definition getProp (v : value) (k : string) : outcome value :=
  match v with
  | VUndefined | VNull => Throws TypeError
  | VObj fields => Returns (lookupField k fields)
  | VArr items =>
      Returns (if String.eqb k "length" then VNum (Z.of_nat (List.length items))
               else VUndefined)
  | VStr s =>
      Returns (if String.eqb k "length" then VNum (Z.of_nat (String.length s))
               else VUndefined)
  | VBool _ | VNum _ => Returns VUndefined
  end.

(** [v === n] for a number literal [n]. *)
Definition strictEqNum (v : value) (n : Z) : bool :=
  match v with
  | VNum m => m =? n
  | _ => false
  end.

(** [v != null]. *)
Definition notNullish (v : value) : bool :=
  match v with
  | VUndefined | VNull => false
  | _ => true
  end.

Record EncodeOptions : Type := mkEncodeOptions
  { gridSize : value; isSwap : value; isRotate : value; isNega : value;
    hashKey : value }.

Record Decoded : Type := mkDecoded
  { encodeOptions : EncodeOptions; areas : value; size : value }.

Definition toData (encodeOptions : EncodeOptions) (areas size : value) : value :=
  VObj
    [ ("s"%string, size);
      ("o"%string,
        VObj
          [ ("k"%string, VNum (if notNullish (hashKey encodeOptions) then 1 else 0));
            ("s"%string, VNum (if truthy (isSwap encodeOptions) then 1 else 0));
            ("n"%string, VNum (if truthy (isNega encodeOptions) then 1 else 0));
            ("g"%string, gridSize encodeOptions);
            ("r"%string, VNum (if truthy (isRotate encodeOptions) then 1 else 0)) ]);
      ("c"%string, areas) ].

Section Pipeline.

(** [DEFAULT_KEY], [MIN_COLOR_BYTE_BLOCK_WIDTH] and [MIN_RESIZED_IMAGE_WIDTH]
    come from [./definition], which is not among the sources. *)
Variable DEFAULT_KEY : string.
Variables MIN_COLOR_BYTE_BLOCK_WIDTH MIN_RESIZED_IMAGE_WIDTH : Z.

(** The external codecs.  [objToBase64]: [Buffer.from (encode (v)).toString ('base64')].
    [decodeBase64]: the body of the [try] in [base64ToObj], that is [window.atob]
    followed by the serializer's [decode]; [None] when either throws. *)
Variable objToBase64 : value -> string.
Variable decodeBase64 : string -> option value.

Definition fromData (data : value) : outcome Decoded :=
  o <- getProp data "o" ;;
  g <- getProp o "g" ;;
  o <- getProp data "o" ;;
  s <- getProp o "s" ;;
  o <- getProp data "o" ;;
  r <- getProp o "r" ;;
  o <- getProp data "o" ;;
  n <- getProp o "n" ;;
  o <- getProp data "o" ;;
  k <- getProp o "k" ;;
  c <- getProp data "c" ;;
  sz <- getProp data "s" ;;
  let result :=
    mkDecoded (mkEncodeOptions g s r n (if truthy k then VStr DEFAULT_KEY else VNull)) c sz in
  (* [!result.encodeOptions]: an object literal, never falsy *)
  let noOptions := false in
  if noOptions || negb (truthy (areas result)) then Throws (Error "Invalid ColorByteCode Type.")
  else
    len <- getProp (areas result) "length" ;;
    if strictEqNum len 0 || negb (truthy (size result))
    then Throws (Error "Invalid ColorByteCode Type.")
    else
      len <- getProp (size result) "length" ;;
      if negb (strictEqNum len 3) then Throws (Error "Invalid ColorByteCode Type.")
      else Returns result.

(** [new Array (n).fill ('=').reduce ((p, c) => p + c, '')]. *)
Definition padding (n : Z) : string :=
  fold_left (fun p c => p ++ c)%string (Js.fill n "="%string) EmptyString.

(** The [while (retry < 4)] loop of [base64ToObj]; [n] bounds the iterations
    still to run.  Leaving the loop falls off the end of the function, which
    returns [undefined]. *)
Fixpoint base64ToObj_loop (n : nat) (retry : Z) (v : string) : outcome value :=
  match n with
  | O => Returns VUndefined
  | S n' =>
      if retry <? 4 then
        match decodeBase64 v with
        | Some ret => Returns ret
        | None =>
            if negb (String.eqb (Js.strSlice (Js.strSliceFrom v (- (retry + 1))) 0 1) "A")
            then Throws (Error "Couldnt Find ColorByteCode.")
            else if retry >? 4 then Throws (Error "Couldnt Find ColorByteCode.")
            else
              let v :=
                (Js.strSlice v 0 (Z.of_nat (String.length v) - retry - 1)
                   ++ padding (retry + 1))%string in
              base64ToObj_loop n' (retry + 1) v
        end
      else Returns VUndefined
  end.

(** [retry] counts 0, 1, 2, 3: four iterations are all the loop can take. *)
Definition base64ToObj (v : string) : outcome value := base64ToObj_loop 4 0 v.


Definition colorByteCodeToData (imageData : ImageData.t) : outcome Decoded :=
  let colors := readColorByteCode imageData in
  let base64String := colorsToBase64String colors in
  data <- base64ToObj base64String ;;
  fromData data.

End Pipeline.

(** ** Vocabulary of the statements *)

(** The 64 characters that stand for a symbol: the table without its last
    entry, the padding sentinel. *)
Definition alphabet : list ascii := firstn 64 BASE64_TABLE.

(** [n] copies of a character. *)
Definition chars (c : ascii) (n : nat) : string := string_of_list_ascii (repeat c n).


(** [v.length === n], for a [v] that is not [undefined] or [null]. *)
Definition lengthIs (v : value) (n : Z) : bool :=
  match getProp v "length" with
  | Returns len => strictEqNum len n
  | Throws _ => false
  end.

(** The rectangle that [paintBlocks] fills for block [j]. *)
Definition inBlock (blockCountX blockCountY blockWidth j px py : Z) : bool :=
  let x := Z.rem j blockCountX * blockWidth in
  let y := (blockCountY - j / blockCountX - 1) * blockWidth in
  (x <=? px) && (px <? x + (blockWidth + 1)) && (y <=? py) && (py <? y + (blockWidth + 1)).

(** The pixel the reader samples for block [k]: the rounded centre. *)
Definition centerX (blockCountX blockWidth k : Z) : Z :=
  Z.rem k blockCountX * blockWidth + (blockWidth + 1) / 2.

Definition centerY (blockCountX blockCountY blockWidth k : Z) : Z :=
  blockCountY * blockWidth - k / blockCountX * blockWidth - blockWidth / 2.

(** What a sample inside block [k] reads: the colour painted there, black
    (the RGB of a transparent pixel) where nothing was painted. *)
Definition shown (cell : option (option Pixel)) : Pixel :=
  match cell with
  | Some (Some (Some r, Some g, Some b)) =>
      (Some (Canvas.clamp255 r), Some (Canvas.clamp255 g), Some (Canvas.clamp255 b))
  | _ => (Some 0, Some 0, Some 0)
  end.

(** Blocks whose colour prints as a CSS colour: all channels are numbers. *)
Definition definedCell (cell : option Pixel) : Prop :=
  match cell with
  | Some (Some _, Some _, Some _) | None => True
  | Some _ => False
  end.

(** Pixels the canvas returns as they were given: channels in [0, 255]. *)
Definition validPixel (p : Pixel) : Prop :=
  match p with
  | (Some r, Some g, Some b) => 0 <= r <= 255 /\ 0 <= g <= 255 /\ 0 <= b <= 255
  | _ => False
  end.

(** A frame whose version block holds the colour [p]. *)
Definition setVersion (p : Pixel) (cells : list (option Pixel)) : list (option Pixel) :=
  match cells with
  | hi :: _ :: rest => hi :: Some p :: rest
  | _ => cells
  end.

(** What a character of the text is read back as after the passage through
    colours: itself when it is one of the 64 alphabet characters, [A]
    otherwise. *)
Definition readBack (c : ascii) : ascii :=
  if existsb (Ascii.eqb c) alphabet then c else "A"%char.



(** * Properties *)

Example numToColor_27 : numToColor 27 = (Some 85, Some 170, Some 255).
Proof. reflexivity. Qed.

Example colorToNum_near : colorToNum (Some 80, Some 180, Some 250) = 27.
Proof. reflexivity. Qed.

Example colorToNum_undefined : colorToNum (None, None, None) = 63.
Proof. reflexivity. Qed.

Example text_roundtrip :
  colorsToBase64String (base64StringToColors "gaFz/+09") = "gaFz/+09"%string.
Proof. reflexivity. Qed.

(** ** Quantizer *)

Section NearestLevel.

Variables (v partition max : Z).
Hypothesis partition_pos : 1 <= partition.
Hypothesis v_range : 0 <= v <= max.

Let step := max / (partition - 1).
Let dist (j : Z) := Z.abs (j * step - v).

(** From the second iteration on the loop holds [ret = i - 1] together with
    its distance; it stops at the first index that is farther than its
    predecessor, or at the last index. *)
Lemma getNearIndex_loop_chain (n : nat) :
  forall i, 1 <= i <= partition -> (Z.to_nat (partition - i) <= n)%nat ->
    let r := getNearIndex_loop n (Some v) partition max i (i - 1) (Some (dist (i - 1))) in
    i - 1 <= r < partition
    /\ (forall j, i - 1 <= j < r -> dist (j + 1) <= dist j)
    /\ (r = partition - 1 \/ dist r < dist (r + 1)).
Proof.
  induction n as [|n IH]; intros i Hi Hn; cbn [getNearIndex_loop].
  - assert (i = partition) by lia. subst i. cbv zeta.
    repeat split; lia.
  - destruct (i <? partition) eqn:Hlt.
    + apply Z.ltb_lt in Hlt. cbn [option_map gtNum].
      fold step. change (Z.abs (i * step - v)) with (dist i).
      destruct (dist i >? dist (i - 1)) eqn:Hgt.
      * cbv zeta. assert (dist (i - 1) < dist i) by lia.
        repeat split; try lia.
        right. replace (i - 1 + 1) with i by lia. assumption.
      * assert (Hle : dist i <= dist (i - 1)) by lia.
        specialize (IH (i + 1)).
        replace (i + 1 - 1) with i in IH by lia.
        destruct IH as (Hr & Hchain & Hstop); [lia | lia |].
        cbv zeta. repeat split; try lia; try assumption.
        intros j Hj. destruct (Z.eq_dec j (i - 1)) as [->|Hne].
        -- replace (i - 1 + 1) with i by lia. exact Hle.
        -- apply Hchain. lia.
    + apply Z.ltb_ge in Hlt. assert (i = partition) by lia. subst i. cbv zeta.
      repeat split; lia.
Qed.

(** The first iteration always accepts index 0, since [|0 - v| = v <= max]. *)
Lemma getNearIndexMax_unfold :
  getNearIndexMax (Some v) partition max
  = getNearIndex_loop (Z.to_nat (partition - 1)) (Some v) partition max 1 0 (Some (dist 0)).
Proof.
  unfold getNearIndexMax.
  replace (Z.to_nat partition) with (S (Z.to_nat (partition - 1))) by lia.
  cbn [getNearIndex_loop].
  replace (0 <? partition) with true by (symmetry; apply Z.ltb_lt; lia).
  cbn [option_map gtNum]. fold step. change (Z.abs (0 * step - v)) with (dist 0).
  replace (dist 0 >? max) with false; [reflexivity|].
  symmetry. unfold dist. rewrite Z.mul_0_l, Z.gtb_ltb. apply Z.ltb_ge. lia.
Qed.

Lemma dist_chain_down (r : Z) :
  (forall j, 0 <= j < r -> dist (j + 1) <= dist j) ->
  forall k, 0 <= k -> forall j, 0 <= j -> j + k = r -> dist r <= dist j.
Proof.
  intros Hchain k Hk. pattern k. apply natlike_ind; [| |exact Hk].
  - intros j Hj Hjr. replace j with r by lia. lia.
  - intros k' Hk' IH j Hj Hjr.
    specialize (IH (j + 1)). specialize (Hchain j). lia.
Qed.

Lemma dist_rises_after (r : Z) :
  0 <= step -> dist r < dist (r + 1) ->
  forall j, r < j -> dist r < dist j.
Proof.
  unfold dist. intros Hs Hr j Hj.
  assert (Hstep : 0 < step) by (destruct (Z.eq_dec step 0) as [E|E]; [rewrite E in *; lia | lia]).
  assert (Hmid : 0 < 2 * (r * step - v) + step) by lia.
  assert (Hmono : (r + 1) * step <= j * step) by (apply Z.mul_le_mono_nonneg_r; lia).
  lia.
Qed.

(** [getNearIndex] returns the index of a nearest level, the highest one
    when two levels are equally near. *)
Lemma getNearIndexMax_nearest :
  let r := getNearIndexMax (Some v) partition max in
  0 <= r < partition
  /\ (forall j, 0 <= j < partition -> dist r <= dist j)
  /\ (forall j, 0 <= j < partition -> dist j = dist r -> j <= r).
Proof.
  rewrite getNearIndexMax_unfold.
  pose proof (getNearIndex_loop_chain (Z.to_nat (partition - 1)) 1) as H.
  change (1 - 1) with 0 in H. cbv zeta in H.
  destruct H as (Hr & Hchain & Hstop); [lia | lia |].
  set (r := getNearIndex_loop _ _ _ _ _ _ _) in *.
  assert (Hs : 0 <= step).
  { unfold step. destruct (Z.eq_dec partition 1) as [->|Hp].
    - simpl. rewrite Z.div_0_r. lia.
    - apply Z.div_pos; lia. }
  assert (Hbelow : forall j, 0 <= j <= r -> dist r <= dist j).
  { intros j Hj. apply (dist_chain_down r Hchain (r - j)); lia. }
  assert (Habove : forall j, r < j < partition -> dist r < dist j).
  { intros j Hj. destruct Hstop as [E|Hlt]; [lia|].
    apply dist_rises_after; [exact Hs | exact Hlt | lia]. }
  cbv zeta. repeat split; try lia.
  - intros j Hj. destruct (Z_le_gt_dec j r); [apply Hbelow; lia|].
    specialize (Habove j). lia.
  - intros j Hj Heq. destruct (Z_le_gt_dec j r); [assumption|].
    specialize (Habove j). lia.
Qed.

End NearestLevel.

Ltac split_comparisons :=
  repeat match goal with
  | |- context [?a >? ?b] => rewrite (Z.gtb_ltb a b)
  | |- context [?a <? ?b] => destruct (Z.ltb_spec a b)
  | |- context [?a <=? ?b] => destruct (Z.leb_spec a b)
  end.

(** On a channel value the loop of [getNearIndex] and the scan of the
    specification pick the same index. *)
Lemma getNearIndex_is_scan (v : Z) :
  0 <= v <= 255 -> getNearIndex (Some v) 4 = spec_nearestLevel v.
Proof.
  intros Hv. unfold getNearIndex, getNearIndexMax, spec_nearestLevel.
  change (Z.to_nat 4) with 4%nat.
  cbn [getNearIndex_loop spec_scanLevels option_map gtNum].
  change (255 / (4 - 1)) with 85. change (0 + 1) with 1. change (1 + 1) with 2.
  change (2 + 1) with 3. change (3 + 1) with 4.
  split_comparisons; try reflexivity; lia.
Qed.

(** C9. For every channel value [v] in [0, 255], [getNearIndex] returns the
    index found by the scan of the specification (indices in increasing
    order, an index accepted when its distance to level [i * 85] is at most
    the best so far, the scan stopped at the first index strictly farther);
    that index is a nearest level, and any level equally near has an index
    no higher: on a tie the higher index wins. *)
Theorem getNearIndex_tie_break (v : Z) :
  0 <= v <= 255 ->
  let r := getNearIndex (Some v) 4 in
  r = spec_nearestLevel v
  /\ 0 <= r <= 3
  /\ (forall j, 0 <= j <= 3 -> Z.abs (r * 85 - v) <= Z.abs (j * 85 - v))
  /\ (forall j, 0 <= j <= 3 -> Z.abs (j * 85 - v) = Z.abs (r * 85 - v) -> j <= r).
Proof.
  intros Hv r. split; [apply getNearIndex_is_scan; exact Hv|].
  assert (H4 : 1 <= 4) by lia.
  destruct (getNearIndexMax_nearest v 4 255 H4 Hv) as (Hr & Hnear & Htie).
  change (255 / (4 - 1)) with 85 in Hnear, Htie.
  fold (getNearIndex (Some v) 4) in Hr, Hnear, Htie. fold r in Hr, Hnear, Htie.
  repeat split; try lia.
  - intros j Hj. apply Hnear. lia.
  - intros j Hj. apply Htie. lia.
Qed.

Lemma getNearIndex_tie_break_witness :
  0 <= 128 <= 255
  /\ (let r := getNearIndex (Some 128) 4 in
      r = spec_nearestLevel 128
      /\ 0 <= r <= 3
      /\ (forall j, 0 <= j <= 3 -> Z.abs (r * 85 - 128) <= Z.abs (j * 85 - 128))
      /\ (forall j, 0 <= j <= 3 -> Z.abs (j * 85 - 128) = Z.abs (r * 85 - 128) -> j <= r)).
Proof. split; [lia | apply (getNearIndex_tie_break 128); lia]. Defined.

(** With levels 0, 2, 4 the value 1 is as near to level 0 as to level 1 of
    the grid: the loop keeps the higher index. *)
Example getNearIndex_tie : getNearIndexMax (Some 1) 3 4 = 1.
Proof. reflexivity. Qed.

(** Outside [0, 255] the first comparison, against [max], already breaks. *)
Example getNearIndex_beyond_max : getNearIndex (Some 300) 4 = 0.
Proof. reflexivity. Qed.

Lemma getNearIndex_level (d : Z) :
  0 <= d <= 3 -> getNearIndex (Some (d * 85)) 4 = d.
Proof.
  intros Hd.
  assert (E : d = 0 \/ d = 1 \/ d = 2 \/ d = 3) by lia.
  destruct E as [->|[->|[->| ->]]]; reflexivity.
Qed.

Lemma numToColor_digits (s : Z) :
  0 <= s ->
  numToColor s
  = (Some (((s / 16) mod 4) * 85), Some (((s / 4) mod 4) * 85), Some ((s mod 4) * 85)).
Proof.
  intros Hs. unfold numToColor, R_CHANNEL_PARTITION, G_CHANNEL_PARTITION, B_CHANNEL_PARTITION.
  change (255 / (4 - 1)) with 85.
  rewrite !Z.rem_mod_nonneg by (try apply Z.div_pos; try apply Z.div_pos; lia).
  rewrite Z.div_div by lia. reflexivity.
Qed.

Lemma colorToNum_levels (r g b : Z) :
  0 <= r <= 3 -> 0 <= g <= 3 -> 0 <= b <= 3 ->
  colorToNum (Some (r * 85), Some (g * 85), Some (b * 85)) = (r * 4 + g) * 4 + b.
Proof.
  intros Hr Hg Hb. unfold colorToNum, R_CHANNEL_PARTITION, G_CHANNEL_PARTITION, B_CHANNEL_PARTITION.
  rewrite !getNearIndex_level by assumption. reflexivity.
Qed.

(** The symbol of a level colour is read off its digits; used for the
    header blocks of a frame. *)
Lemma colorToNum_numToColor (s : Z) :
  0 <= s <= 63 -> colorToNum (numToColor s) = s.
Proof.
  intros Hs.
  assert (Hr : 0 <= (s / 16) mod 4 <= 3) by (Z.div_mod_to_equations; lia).
  assert (Hg : 0 <= (s / 4) mod 4 <= 3) by (Z.div_mod_to_equations; lia).
  assert (Hb : 0 <= s mod 4 <= 3) by (Z.div_mod_to_equations; lia).
  rewrite numToColor_digits, (colorToNum_levels _ _ _ Hr Hg Hb) by lia.
  Z.div_mod_to_equations. lia.
Qed.

(** C2. For every symbol [s] in [0, 63], [colorToNum (numToColor s) = s]. *)
Theorem quantizer_roundtrip (s : Z) :
  0 <= s <= 63 -> colorToNum (numToColor s) = s.
Proof.
  intros Hs. rewrite numToColor_digits by lia.
  pose proof (Z.mod_pos_bound (s / 16) 4). pose proof (Z.mod_pos_bound (s / 4) 4).
  pose proof (Z.mod_pos_bound s 4).
  rewrite colorToNum_levels by lia.
  Z.div_mod_to_equations. lia.
Qed.

Lemma quantizer_roundtrip_witness : 0 <= 27 <= 63 /\ colorToNum (numToColor 27) = 27.
Proof. split; [lia | apply (quantizer_roundtrip 27); lia]. Defined.

(** ** Symbol codec *)

Lemma str_app_assoc (a b c : string) : ((a ++ b) ++ c = a ++ (b ++ c))%string.
Proof. induction a as [|x a IH]; simpl; [reflexivity | now rewrite IH]. Qed.

Lemma str_app_nil_r (a : string) : (a ++ "" = a)%string.
Proof. induction a as [|x a IH]; simpl; [reflexivity | now rewrite IH]. Qed.

Lemma list_ascii_of_string_app (a b : string) :
  list_ascii_of_string (a ++ b) = (list_ascii_of_string a ++ list_ascii_of_string b)%list.
Proof. induction a as [|x a IH]; simpl; [reflexivity | now rewrite IH]. Qed.

Lemma length_list_ascii_of_string (a : string) :
  List.length (list_ascii_of_string a) = String.length a.
Proof. induction a as [|x a IH]; simpl; [reflexivity | now rewrite IH]. Qed.

Lemma base64StringToColors_app (a b : string) :
  base64StringToColors (a ++ b)
  = (base64StringToColors a ++ base64StringToColors b)%list.
Proof. unfold base64StringToColors. now rewrite list_ascii_of_string_app, map_app. Qed.

Lemma symbols_fold_acc (colors : list Pixel) (acc : string) :
  fold_left (fun p c => appendChar p (numToBase64Char (colorToNum c))) colors acc
  = (acc ++ colorsToBase64String colors)%string.
Proof.
  unfold colorsToBase64String. revert acc.
  induction colors as [|c colors IH]; intros acc; simpl.
  - now rewrite str_app_nil_r.
  - rewrite IH, (IH (appendChar _ _)).
    destruct (numToBase64Char (colorToNum c)); simpl; now rewrite str_app_assoc.
Qed.

Lemma colorsToBase64String_app (a b : list Pixel) :
  colorsToBase64String (a ++ b)
  = (colorsToBase64String a ++ colorsToBase64String b)%string.
Proof. unfold colorsToBase64String at 1. now rewrite fold_left_app, symbols_fold_acc. Qed.

Lemma findIndexFrom_absent {A : Type} (p : A -> bool) (l : list A) :
  (forall x, In x l -> p x = false) -> forall i, Js.findIndexFrom p i l = -1.
Proof.
  induction l as [|x l IH]; intros H i; simpl; [reflexivity|].
  rewrite (H x) by (left; reflexivity). apply IH. intros y Hy. apply H. now right.
Qed.

Lemma base64CharToNum_unknown (c : ascii) :
  ~ In c BASE64_TABLE -> base64CharToNum c = -1.
Proof.
  intros Hc. apply findIndexFrom_absent. intros x Hx.
  apply Ascii.eqb_neq. intros ->. contradiction.
Qed.

Lemma alphabet_roundtrip (c : ascii) :
  In c alphabet ->
  numToBase64Char (colorToNum (numToColor (base64CharToNum c))) = Some c.
Proof.
  assert (H : forallb (fun c =>
                match numToBase64Char (colorToNum (numToColor (base64CharToNum c))) with
                | Some c' => Ascii.eqb c' c
                | None => false
                end) alphabet = true) by (vm_compute; reflexivity).
  rewrite forallb_forall in H. intros Hc. specialize (H c Hc).
  destruct (numToBase64Char _) as [c'|]; [|discriminate].
  apply Ascii.eqb_eq in H. now subst.
Qed.

(** Text over the 64-character alphabet survives the passage through colours. *)
Lemma text_colors_roundtrip (t : string) :
  Forall (fun c => In c alphabet) (list_ascii_of_string t) ->
  colorsToBase64String (base64StringToColors t) = t.
Proof.
  induction t as [|c t IH]; intros H; [reflexivity|].
  inversion H as [|? ? Hc Ht]; subst.
  change (String c t) with (String c "" ++ t)%string at 1.
  rewrite base64StringToColors_app, colorsToBase64String_app, (IH Ht).
  unfold colorsToBase64String, base64StringToColors.
  cbn [list_ascii_of_string map fold_left].
  now rewrite (alphabet_roundtrip c Hc).
Qed.


(** C7, as the code has it. [base64StringToColors] has no failure: it returns
    one colour per character, and a character that is not in the table gets
    index -1 and the colour [-85, -85, -85]. *)
Theorem unknown_character_gets_a_color (str : string) (c : ascii) :
  In c (list_ascii_of_string str) -> ~ In c BASE64_TABLE ->
  List.length (base64StringToColors str) = String.length str
  /\ base64CharToNum c = -1
  /\ In (Some (-85), Some (-85), Some (-85)) (base64StringToColors str).
Proof.
  intros Hin Hc. split; [|split].
  - unfold base64StringToColors. now rewrite length_map, length_list_ascii_of_string.
  - now apply base64CharToNum_unknown.
  - unfold base64StringToColors. apply in_map_iff. exists c. split; [|exact Hin].
    now rewrite base64CharToNum_unknown.
Qed.

Lemma unknown_character_gets_a_color_witness :
  In "?"%char (list_ascii_of_string "ab?d")
  /\ ~ In "?"%char BASE64_TABLE
  /\ List.length (base64StringToColors "ab?d") = String.length "ab?d"
  /\ base64CharToNum "?"%char = -1
  /\ In (Some (-85), Some (-85), Some (-85)) (base64StringToColors "ab?d").
Proof.
  assert (Hin : In "?"%char (list_ascii_of_string "ab?d")) by (simpl; tauto).
  assert (Hout : ~ In "?"%char BASE64_TABLE).
  { intros H. apply (In_nth_error BASE64_TABLE) in H. destruct H as [n H].
    do 65 (destruct n as [|n]; [discriminate H|]). destruct n; discriminate H. }
  split; [exact Hin | split; [exact Hout |]].
  exact (unknown_character_gets_a_color "ab?d" "?"%char Hin Hout).
Defined.

(** C7, as stated, fails: the conversion of a text with a character outside
    the alphabet returns colours, one of them for the unknown character. *)
Lemma unknown_character_not_rejected :
  base64CharToNum "?"%char = -1
  /\ base64StringToColors "a?" = [(Some 85, Some 170, Some 170); (Some (-85), Some (-85), Some (-85))].
Proof. split; reflexivity. Qed.

(** ** Slices *)

Lemma slice_nonneg {A : Type} (l : list A) (a b : Z) :
  0 <= a -> 0 <= b ->
  Js.slice l a b = firstn (Z.to_nat b - Z.to_nat a) (skipn (Z.to_nat a) l).
Proof.
  intros Ha Hb. unfold Js.slice, Js.clampIndex.
  replace (a <? 0) with false by (symmetry; apply Z.ltb_ge; lia).
  replace (b <? 0) with false by (symmetry; apply Z.ltb_ge; lia).
  set (len := List.length l).
  destruct (Z_le_gt_dec (Z.of_nat len) a) as [Hlen|Hlen].
  - rewrite !(skipn_all2 l) by (fold len; lia). now rewrite !firstn_nil.
  - replace (Z.min a (Z.of_nat len)) with a by lia.
    destruct (Z_le_gt_dec b (Z.of_nat len)) as [Hb'|Hb'].
    + replace (Z.min b (Z.of_nat len)) with b by lia. f_equal. lia.
    + replace (Z.min b (Z.of_nat len)) with (Z.of_nat len) by lia.
      rewrite !firstn_all2; [reflexivity | |]; rewrite length_skipn; fold len; lia.
Qed.

Lemma sliceFrom_nonneg {A : Type} (l : list A) (a : Z) :
  0 <= a -> Js.sliceFrom l a = skipn (Z.to_nat a) l.
Proof.
  intros Ha. unfold Js.sliceFrom. rewrite slice_nonneg by lia.
  apply firstn_all2. rewrite length_skipn. lia.
Qed.

(** ** Framing *)

Section Framing.

Variable data : list Pixel.
Variable blockCountX : Z.

Let L := Z.of_nat (List.length data).
Let header : list Pixel :=
  [numToColor (blockCountX / 64); numToColor 1; numToColor (L mod 64); numToColor (L / 64)].
Let footer : Pixel := numToColor (blockCountX mod 64).

Lemma rem_length_64 : Z.rem L 64 = L mod 64.
Proof. apply Z.rem_mod_nonneg; unfold L; lia. Qed.

(** Short payload: header, data, placeholders up to column [blockCountX - 2],
    footer in column [blockCountX - 1]. *)
Lemma frameBlocks_one_row :
  L + 4 < blockCountX - 1 ->
  frameBlocks data blockCountX
  = map Some (header ++ data) ++ repeat None (Z.to_nat (blockCountX - L - 5)) ++ [Some footer].
Proof.
  intros Hlt. unfold frameBlocks. fold L. cbn [List.length].
  replace (Z.of_nat (S (S (S (S (List.length data)))))) with (L + 4) by (unfold L; lia).
  replace (L + 4 <? blockCountX - 1) with true by (symmetry; apply Z.ltb_lt; lia).
  unfold Js.fill. rewrite rem_length_64, Z.rem_mod_nonneg by lia.
  replace (blockCountX - (L + 4) - 1) with (blockCountX - L - 5) by lia.
  reflexivity.
Qed.

(** Long payload: the footer is inserted after the first [blockCountX - 1]
    blocks of header and data. *)
Lemma frameBlocks_spliced :
  1 <= blockCountX -> blockCountX - 1 <= L + 4 ->
  frameBlocks data blockCountX
  = map Some (firstn (Z.to_nat (blockCountX - 1)) (header ++ data))
      ++ [Some footer]
      ++ map Some (skipn (Z.to_nat (blockCountX - 1)) (header ++ data)).
Proof.
  intros Hpos Hge. unfold frameBlocks. fold L. cbn [List.length].
  replace (Z.of_nat (S (S (S (S (List.length data)))))) with (L + 4) by (unfold L; lia).
  replace (L + 4 <? blockCountX - 1) with false by (symmetry; apply Z.ltb_ge; lia).
  rewrite slice_nonneg, sliceFrom_nonneg by lia.
  rewrite rem_length_64, Z.rem_mod_nonneg by lia.
  change (Z.to_nat 0) with 0%nat. rewrite Nat.sub_0_r. reflexivity.
Qed.

Lemma length_header_data : List.length (header ++ data) = Z.to_nat (L + 4).
Proof. rewrite length_app. unfold L. simpl. lia. Qed.

Lemma length_frameBlocks :
  1 <= blockCountX ->
  Z.of_nat (List.length (frameBlocks data blockCountX)) = Z.max blockCountX (L + 5).
Proof.
  intros Hpos. destruct (Z_lt_ge_dec (L + 4) (blockCountX - 1)) as [Hlt|Hge].
  - rewrite frameBlocks_one_row by exact Hlt.
    rewrite !length_app, length_map, repeat_length, length_header_data.
    cbn [List.length]. unfold L in *. lia.
  - rewrite frameBlocks_spliced by lia.
    rewrite !length_app, !length_map, length_firstn, length_skipn, length_header_data.
    cbn [List.length]. unfold L in *. lia.
Qed.

(** In both shapes the footer is the block at index [blockCountX - 1]. *)
Lemma frameBlocks_footer :
  1 <= blockCountX ->
  Js.index (frameBlocks data blockCountX) (blockCountX - 1) = Some (Some footer).
Proof.
  intros Hpos. unfold Js.index.
  replace (blockCountX - 1 <? 0) with false by (symmetry; apply Z.ltb_ge; lia).
  destruct (Z_lt_ge_dec (L + 4) (blockCountX - 1)) as [Hlt|Hge].
  - rewrite frameBlocks_one_row by exact Hlt.
    rewrite app_assoc, nth_error_app2;
      rewrite length_app, length_map, repeat_length, length_header_data; [|lia].
    replace (_ - _)%nat with 0%nat by lia. reflexivity.
  - rewrite frameBlocks_spliced by lia.
    rewrite nth_error_app2; rewrite length_map, length_firstn, length_header_data; [|lia].
    replace (_ - _)%nat with 0%nat by lia. reflexivity.
Qed.

(** Cutting a frame with the true length and width gives the data back, as
    soon as row 0 has room for the four header blocks and the footer. *)
Lemma mainColors_frameBlocks :
  5 <= blockCountX ->
  mainColors (frameBlocks data blockCountX) L blockCountX = map Some data.
Proof.
  intros Hfive. unfold mainColors.
  destruct (Z_lt_ge_dec (L + 4) (blockCountX - 1)) as [Hlt|Hge].
  - rewrite frameBlocks_one_row by exact Hlt.
    replace (L + 4 <? blockCountX) with true by (symmetry; apply Z.ltb_lt; lia).
    rewrite slice_nonneg by (unfold L; lia).
    rewrite map_app, <- app_assoc. change (Z.to_nat 4) with (List.length (map Some header)).
    rewrite skipn_app, skipn_all, Nat.sub_diag. cbn [app skipn].
    replace (_ - List.length (map Some header))%nat with (List.length (map Some data))
      by (rewrite !length_map; unfold L, header; cbn [List.length]; lia).
    rewrite firstn_app, firstn_all, Nat.sub_diag, firstn_O. apply app_nil_r.
  - rewrite frameBlocks_spliced by lia.
    set (hd := header ++ data) in *.
    set (n := Z.to_nat (blockCountX - 1)).
    assert (Hn : (4 <= n <= List.length hd)%nat)
      by (unfold hd; rewrite length_header_data; lia).
    assert (Hdata : skipn 4 hd = data) by reflexivity.
    destruct (Z.ltb_spec (L + 4) blockCountX) as [Hrow|Hrow].
    + (* header and data stop exactly where the footer starts *)
      assert (En : n = List.length hd) by (unfold hd; rewrite length_header_data; lia).
      rewrite slice_nonneg by (unfold L; lia).
      rewrite En, firstn_all, skipn_all. cbn [map app].
      rewrite skipn_app, length_map.
      replace (Z.to_nat 4 - List.length hd)%nat with 0%nat by lia. cbn [skipn].
      rewrite skipn_map. change (Z.to_nat 4) with 4%nat. rewrite Hdata.
      rewrite firstn_app, firstn_all2 by (rewrite length_map; unfold L; lia).
      replace (_ - List.length (map Some data))%nat with 0%nat
        by (rewrite length_map; unfold L; lia).
      rewrite firstn_O. apply app_nil_r.
    + rewrite slice_nonneg, sliceFrom_nonneg by lia.
      assert (Elen : List.length (map Some (firstn n hd)) = n)
        by (rewrite length_map, length_firstn; lia).
      (* after the footer *)
      replace (skipn (Z.to_nat blockCountX) _) with (map Some (skipn n hd)).
      2:{ replace (Z.to_nat blockCountX) with (n + 1)%nat by lia.
          rewrite skipn_app, (skipn_all2 (map Some (firstn n hd))) by (rewrite Elen; lia).
          rewrite Elen.
          replace (n + 1 - n)%nat with 1%nat by lia. reflexivity. }
      (* before the footer *)
      replace (firstn _ (skipn (Z.to_nat 4) _)) with (map Some (skipn 4 (firstn n hd))).
      2:{ change (Z.to_nat 4) with 4%nat.
          rewrite skipn_app, Elen. replace (4 - n)%nat with 0%nat by lia.
          rewrite skipn_O, firstn_app, skipn_map. fold n.
          assert (Elen4 : List.length (map Some (skipn 4 (firstn n hd))) = (n - 4)%nat)
            by (rewrite length_map, length_skipn, length_firstn; lia).
          rewrite Elen4, Nat.sub_diag, firstn_O, app_nil_r, <- Elen4.
          symmetry. apply firstn_all. }
      rewrite <- map_app. f_equal. rewrite <- Hdata.
      rewrite <- (firstn_skipn n hd) at 3.
      rewrite skipn_app, length_firstn.
      replace (4 - Nat.min n (List.length hd))%nat with 0%nat by lia. reflexivity.
Qed.

End Framing.

(** C3, as the code has it. For every data colour sequence of length [L] and
    every [blockCountX >= 1], the framed sequence is the header
    [blockCountX / 64, 1, L mod 64, L / 64] followed by the data, with the
    footer [blockCountX mod 64] at index [blockCountX - 1]: behind
    placeholders that fill row 0 when header and data have fewer than
    [blockCountX - 1] blocks, and otherwise spliced in after the first
    [blockCountX - 1] blocks, the later ones moving on. *)
Theorem frame_layout (data : list Pixel) (blockCountX : Z) :
  1 <= blockCountX ->
  let L := Z.of_nat (List.length data) in
  let framed :=
    [numToColor (blockCountX / 64); numToColor 1; numToColor (L mod 64); numToColor (L / 64)]
      ++ data in
  let footer := numToColor (blockCountX mod 64) in
  Js.index (frameBlocks data blockCountX) (blockCountX - 1) = Some (Some footer)
  /\ (L + 4 < blockCountX - 1 ->
      frameBlocks data blockCountX
      = map Some framed ++ repeat None (Z.to_nat (blockCountX - 1 - (L + 4))) ++ [Some footer])
  /\ (blockCountX - 1 <= L + 4 ->
      frameBlocks data blockCountX
      = map Some (firstn (Z.to_nat (blockCountX - 1)) framed)
          ++ [Some footer]
          ++ map Some (skipn (Z.to_nat (blockCountX - 1)) framed)).
Proof.
  intros Hpos L framed footer. split; [|split].
  - apply frameBlocks_footer. exact Hpos.
  - intros Hlt. rewrite frameBlocks_one_row by exact Hlt.
    replace (blockCountX - 1 - (L + 4)) with (blockCountX - L - 5) by lia. reflexivity.
  - intros Hge. apply frameBlocks_spliced; assumption.
Qed.

Lemma frame_layout_witness :
  1 <= 8
  /\ (let data := [numToColor 5; numToColor 6] in
      let L := Z.of_nat (List.length data) in
      let framed :=
        [numToColor (8 / 64); numToColor 1; numToColor (L mod 64); numToColor (L / 64)]
          ++ data in
      let footer := numToColor (8 mod 64) in
      Js.index (frameBlocks data 8) (8 - 1) = Some (Some footer)
      /\ (L + 4 < 8 - 1 ->
          frameBlocks data 8
          = map Some framed ++ repeat None (Z.to_nat (8 - 1 - (L + 4))) ++ [Some footer])
      /\ (8 - 1 <= L + 4 ->
          frameBlocks data 8
          = map Some (firstn (Z.to_nat (8 - 1)) framed)
              ++ [Some footer]
              ++ map Some (skipn (Z.to_nat (8 - 1)) framed))).
Proof.
  split; [lia|]. apply (frame_layout [numToColor 5; numToColor 6] 8). lia.
Defined.

(** C3, as stated for every [blockCountX], fails at 0 blocks per row: there
    is no index -1, and the footer lands before the last data block. *)
Lemma frame_layout_zero_blocks_per_row :
  frameBlocks [numToColor 5; numToColor 6] 0
  = map Some [numToColor 0; numToColor 1; numToColor 2; numToColor 0;
              numToColor 5; numToColor (0 mod 64); numToColor 6]
  /\ Js.index (frameBlocks [numToColor 5; numToColor 6] 0) (0 - 1) = None.
Proof. split; reflexivity. Qed.

(** C4, as the code has it. With at least 5 blocks per row, cutting the framed
    sequence by the rule of the reader ([raw[4 .. 4 + length)] when
    [length + 4 < blockCountX], else [raw[4 .. blockCountX - 1)] followed by
    [raw[blockCountX ..]]) gives back the data, whether the payload fits row 0
    or runs over several rows. *)
Theorem frame_then_extract (data : list Pixel) (blockCountX : Z) :
  5 <= blockCountX ->
  mainColors (frameBlocks data blockCountX) (Z.of_nat (List.length data)) blockCountX
  = map Some data.
Proof. apply mainColors_frameBlocks. Qed.

Lemma frame_then_extract_witness :
  5 <= 8
  /\ (let data := map numToColor (range 20) in
      mainColors (frameBlocks data 8) (Z.of_nat (List.length data)) 8 = map Some data).
Proof. split; [lia | apply (frame_then_extract (map numToColor (range 20)) 8); lia]. Defined.

(** C4, as stated for every frame, fails with 4 blocks per row: the footer
    sits among the header blocks and the cut keeps a header block. *)
Lemma frame_then_extract_narrow :
  mainColors (frameBlocks [numToColor 5] 4) 1 4 = [Some (numToColor 0); Some (numToColor 5)]
  /\ mainColors (frameBlocks [numToColor 5] 4) 1 4 <> map Some [numToColor 5].
Proof. split; [reflexivity | discriminate]. Qed.

(** The two payloads of the specification's test: 8 blocks per row, 2 data
    blocks (one row) and 20 data blocks (four rows). *)
Example frame_8_2 :
  frameBlocks [numToColor 5; numToColor 6] 8
  = [Some (numToColor 0); Some (numToColor 1); Some (numToColor 2); Some (numToColor 0);
     Some (numToColor 5); Some (numToColor 6); None; Some (numToColor 8)].
Proof. reflexivity. Qed.

Example frame_8_20 :
  let data := map numToColor (range 20) in
  Z.of_nat (List.length (frameBlocks data 8)) = 25
  /\ Js.index (frameBlocks data 8) 7 = Some (Some (numToColor 8))
  /\ mainColors (frameBlocks data 8) 20 8 = map Some data.
Proof. repeat split. Qed.

(** ** Remap between the domain record and the wire object *)

Lemma truthy_flag (b : bool) : truthy (VNum (if b then 1 else 0)) = b.
Proof. destruct b; reflexivity. Qed.


(** A wire object without its option sub-record makes [fromData] stop on the
    read of [data.o.g], before any of its own checks. *)
Lemma fromData_without_options (DEFAULT_KEY : string) (fields : list (string * value)) :
  lookupField "o" fields = VUndefined ->
  fromData DEFAULT_KEY (VObj fields) = Throws TypeError.
Proof. intros H. unfold fromData. cbn [getProp bind]. rewrite H. reflexivity. Qed.

(** C8 at its failing input: areas and size are in order, the option
    sub-record is absent, and what is thrown is the TypeError of the property
    read, not [Invalid ColorByteCode Type.]. *)
Theorem fromData_missing_options_is_type_error :
  forall DEFAULT_KEY : string,
    fromData DEFAULT_KEY
      (VObj [ ("s"%string, VArr [VNum 640; VNum 480; VNum 0]);
              ("c"%string, VArr [VArr [VNum 0; VNum 0; VNum 8; VNum 8]]) ])
    = Throws TypeError.
Proof. intros DEFAULT_KEY. apply fromData_without_options. reflexivity. Qed.

(** With the option sub-record present, the checks of [fromData] decide: an
    absent or empty area list, or a size that is absent or not of length 3,
    throws [Invalid ColorByteCode Type.]; anything else is returned. *)
Lemma fromData_with_options (DEFAULT_KEY : string) (fields ofields : list (string * value)) :
  lookupField "o" fields = VObj ofields ->
  let c := lookupField "c" fields in
  let s := lookupField "s" fields in
  fromData DEFAULT_KEY (VObj fields)
  = if truthy c && negb (lengthIs c 0) && truthy s && lengthIs s 3
    then Returns
           (mkDecoded
              (mkEncodeOptions (lookupField "g" ofields) (lookupField "s" ofields)
                 (lookupField "r" ofields) (lookupField "n" ofields)
                 (if truthy (lookupField "k" ofields) then VStr DEFAULT_KEY else VNull))
              c s)
    else Throws (Error "Invalid ColorByteCode Type.").
Proof.
  intros Ho c s. unfold fromData. cbn [getProp bind]. rewrite Ho. cbn [getProp bind].
  fold c s. cbn [areas size orb]. unfold lengthIs.
  destruct (truthy c) eqn:Hc; cbn [negb andb]; [|reflexivity].
  destruct (getProp c "length") as [lc|e] eqn:Hlc;
    [|destruct c; cbn in Hc, Hlc; discriminate].
  cbn [bind]. destruct (strictEqNum lc 0); cbn [negb andb orb]; [reflexivity|].
  destruct (truthy s) eqn:Hs; cbn [negb andb]; [|reflexivity].
  destruct (getProp s "length") as [ls|e] eqn:Hls;
    [|destruct s; cbn in Hs, Hls; discriminate].
  cbn [bind]. destruct (strictEqNum ls 3); reflexivity.
Qed.

(** ** Padding recovery *)

Lemma length_str_app (a b : string) :
  String.length (a ++ b) = (String.length a + String.length b)%nat.
Proof. induction a as [|x a IH]; simpl; [reflexivity | now rewrite IH]. Qed.

(** The character looked at after a failed attempt at retry [r]: the one
    [r + 1] places from the end. *)
Lemma strSlice_from_end (u w : string) (c : ascii) (r : Z) :
  Z.of_nat (String.length w) = r ->
  Js.strSlice (Js.strSliceFrom (u ++ String c w) (- (r + 1))) 0 1 = String c EmptyString.
Proof.
  intros Hr. unfold Js.strSlice, Js.strSliceFrom, Js.sliceFrom.
  rewrite list_ascii_of_string_of_list_ascii, list_ascii_of_string_app.
  cbn [list_ascii_of_string].
  set (lu := list_ascii_of_string u). set (lw := list_ascii_of_string w).
  assert (Hlw : Z.of_nat (List.length lw) = r)
    by (unfold lw; rewrite length_list_ascii_of_string; exact Hr).
  assert (E : Js.slice (lu ++ c :: lw) (- (r + 1)) (Z.of_nat (List.length (lu ++ c :: lw)))
              = c :: lw).
  { unfold Js.slice, Js.clampIndex. rewrite length_app. cbn [List.length].
    replace (- (r + 1) <? 0) with true by (symmetry; apply Z.ltb_lt; lia).
    replace (Z.of_nat _ <? 0) with false by (symmetry; apply Z.ltb_ge; lia).
    rewrite Z.min_id.
    replace (Z.to_nat (Z.max _ 0)) with (List.length lu) by lia.
    rewrite skipn_app, skipn_all, Nat.sub_diag. cbn [skipn app].
    apply firstn_all2. cbn [List.length]. lia. }
  rewrite E, slice_nonneg by lia. reflexivity.
Qed.

(** The text kept in front of the sentinels written at retry [r]. *)
Lemma strSlice_without_end (u w : string) (c : ascii) (r : Z) :
  Z.of_nat (String.length w) = r ->
  Js.strSlice (u ++ String c w) 0
    (Z.of_nat (String.length (u ++ String c w)) - r - 1) = u.
Proof.
  intros Hr. unfold Js.strSlice.
  rewrite length_str_app. cbn [String.length].
  rewrite slice_nonneg by lia. rewrite list_ascii_of_string_app.
  change (Z.to_nat 0) with 0%nat. rewrite Nat.sub_0_r, skipn_O.
  replace (Z.to_nat _) with (List.length (list_ascii_of_string u))
    by (rewrite length_list_ascii_of_string; lia).
  rewrite firstn_app, firstn_all, Nat.sub_diag, firstn_O, app_nil_r.
  apply string_of_list_ascii_of_string.
Qed.

Section Retry.

Variable decodeBase64 : string -> option value.

Lemma base64ToObj_loop_success (n : nat) (r : Z) (v : string) (x : value) :
  r < 4 -> decodeBase64 v = Some x ->
  base64ToObj_loop decodeBase64 (S n) r v = Returns x.
Proof.
  intros Hr Hv. cbn [base64ToObj_loop].
  replace (r <? 4) with true by (symmetry; apply Z.ltb_lt; lia).
  now rewrite Hv.
Qed.

(** One failed attempt: the text is given up unless the character [r + 1]
    places from its end is [A]; otherwise the last [r + 1] characters become
    sentinels and the loop goes on. *)
Lemma base64ToObj_loop_retry (n : nat) (r : Z) (u w : string) (c : ascii) :
  Z.of_nat (String.length w) = r -> r < 4 ->
  decodeBase64 (u ++ String c w) = None ->
  base64ToObj_loop decodeBase64 (S n) r (u ++ String c w)
  = if Ascii.eqb c "A"
    then base64ToObj_loop decodeBase64 n (r + 1) (u ++ padding (r + 1))
    else Throws (Error "Couldnt Find ColorByteCode.").
Proof.
  intros Hw Hr Hv. cbn [base64ToObj_loop].
  replace (r <? 4) with true by (symmetry; apply Z.ltb_lt; lia).
  rewrite Hv, (strSlice_from_end u w c r Hw), (strSlice_without_end u w c r Hw).
  replace (r >? 4) with false by (symmetry; rewrite Z.gtb_ltb; apply Z.ltb_ge; lia).
  cbn [String.eqb]. destruct (Ascii.eqb c "A"); reflexivity.
Qed.

(** C6 at its failing input: four attempts fail on a text that ends in
    [AAAA]; the loop is left with [retry = 4] and the function returns
    [undefined] instead of throwing [Couldnt Find ColorByteCode.]. *)
Theorem base64ToObj_exhausted_returns_undefined (u : string) :
  decodeBase64 (u ++ "AAAA") = None ->
  decodeBase64 (u ++ "AAA=") = None ->
  decodeBase64 (u ++ "AA==") = None ->
  decodeBase64 (u ++ "A===") = None ->
  base64ToObj decodeBase64 (u ++ "AAAA") = Returns VUndefined.
Proof.
  intros H0 H1 H2 H3. unfold base64ToObj.
  assert (S0 : (u ++ "AAAA" = (u ++ "AAA") ++ String "A" "")%string)
    by (now rewrite str_app_assoc).
  assert (S1 : ((u ++ "AAA") ++ padding 1 = (u ++ "AA") ++ String "A" "=")%string)
    by (now rewrite !str_app_assoc).
  assert (S2 : ((u ++ "AA") ++ padding 2 = (u ++ "A") ++ String "A" "==")%string)
    by (now rewrite !str_app_assoc).
  assert (S3 : ((u ++ "A") ++ padding 3 = u ++ String "A" "===")%string)
    by (now rewrite !str_app_assoc).
  rewrite S0, base64ToObj_loop_retry by (rewrite <- ?S0; auto; lia).
  cbn [Ascii.eqb Bool.eqb]. change (0 + 1) with 1.
  rewrite S1, base64ToObj_loop_retry
    by (rewrite <- ?S1, ?str_app_assoc; auto; lia).
  cbn [Ascii.eqb Bool.eqb]. change (1 + 1) with 2.
  rewrite S2, base64ToObj_loop_retry
    by (rewrite <- ?S2, ?str_app_assoc; auto; lia).
  cbn [Ascii.eqb Bool.eqb]. change (2 + 1) with 3.
  rewrite S3, base64ToObj_loop_retry by (auto; lia).
  reflexivity.
Qed.

End Retry.

Lemma base64ToObj_exhausted_returns_undefined_witness :
  base64ToObj (fun _ => None) "AAAAA" = Returns VUndefined.
Proof.
  apply (base64ToObj_exhausted_returns_undefined (fun _ => None) "A"); reflexivity.
Defined.


(** ** Rasters: what the reader finds in a painted canvas *)

Lemma length_range (n : Z) : List.length (range n) = Z.to_nat n.
Proof. unfold range. now rewrite length_map, length_seq. Qed.

Lemma index_range (n i : Z) : 0 <= i < n -> Js.index (range n) i = Some i.
Proof.
  intros Hi. unfold Js.index, range.
  replace (i <? 0) with false by (symmetry; apply Z.ltb_ge; lia).
  rewrite nth_error_map, nth_error_seq.
  replace (Z.to_nat i <? Z.to_nat n)%nat with true by (symmetry; apply Nat.ltb_lt; lia).
  cbn [option_map]. f_equal. lia.
Qed.

(** Indexing a concatenation of chunks that all have the same length. *)
Lemma nth_error_flat_map_chunks {A B : Type} (f : A -> list B) (n : nat) (l : list A) :
  (forall a, List.length (f a) = n) ->
  forall i j a, nth_error l i = Some a -> (j < n)%nat ->
    nth_error (flat_map f l) (i * n + j) = nth_error (f a) j.
Proof.
  intros Hlen. induction l as [|x l IH]; intros i j a Hi Hj.
  - destruct i; discriminate.
  - destruct i as [|i]; cbn [flat_map].
    + injection Hi as ->. rewrite nth_error_app1 by (rewrite Hlen; lia). reflexivity.
    + rewrite nth_error_app2 by (rewrite Hlen; lia).
      rewrite Hlen. replace (S i * n + j - n)%nat with (i * n + j)%nat by lia.
      apply IH; assumption.
Qed.

Lemma getImageData_index (c : Canvas.t) (px py k : Z) :
  0 <= px < Canvas.width c -> 0 <= py < Canvas.height c -> 0 <= k < 4 ->
  Js.index (ImageData.data (Canvas.getImageData c)) ((px + py * Canvas.width c) * 4 + k)
  = let '(r, g, b, a) := Canvas.pixel c px py in nth_error [r; g; b; a] (Z.to_nat k).
Proof.
  intros Hx Hy Hk. unfold Js.index, Canvas.getImageData. cbn [ImageData.data].
  replace (_ <? 0) with false by (symmetry; apply Z.ltb_ge; nia).
  set (w := Canvas.width c) in *.
  set (row := fun py : Z => flat_map _ (range w)).
  replace (Z.to_nat ((px + py * w) * 4 + k))
    with (Z.to_nat py * (4 * Z.to_nat w) + (Z.to_nat px * 4 + Z.to_nat k))%nat by nia.
  assert (Hcell : forall px', List.length
            (let '(r, g, b, a) := Canvas.pixel c px' py in [r; g; b; a]) = 4%nat)
    by (intros px'; destruct (Canvas.pixel c px' py) as [[[? ?] ?] ?]; reflexivity).
  assert (Hrow : forall py', List.length (row py') = (4 * Z.to_nat w)%nat).
  { intros py'. unfold row. rewrite length_flat_map.
    rewrite (map_ext _ (fun _ => 4%nat))
      by (intros px'; destruct (Canvas.pixel c px' py') as [[[? ?] ?] ?]; reflexivity).
    rewrite <- length_range. generalize (range w) as l.
    induction l as [|x l IH]; [reflexivity|].
    cbn [map List.length]. change (list_sum (?a :: ?t)) with (a + list_sum t)%nat.
    rewrite IH. lia. }
  assert (Epy : nth_error (range (Canvas.height c)) (Z.to_nat py) = Some py).
  { pose proof (index_range (Canvas.height c) py Hy) as H. unfold Js.index in H.
    replace (py <? 0) with false in H by (symmetry; apply Z.ltb_ge; lia). exact H. }
  assert (Epx : nth_error (range w) (Z.to_nat px) = Some px).
  { pose proof (index_range w px Hx) as H. unfold Js.index in H.
    replace (px <? 0) with false in H by (symmetry; apply Z.ltb_ge; lia). exact H. }
  rewrite (nth_error_flat_map_chunks row (4 * Z.to_nat w) _ Hrow _ _ py Epy) by nia.
  unfold row.
  rewrite (nth_error_flat_map_chunks _ 4 _ Hcell _ _ px Epx) by lia.
  destruct (Canvas.pixel c px py) as [[[? ?] ?] ?]. reflexivity.
Qed.

Lemma getPixelColor_canvas (c : Canvas.t) (x y : Q) :
  0 <= round x < Canvas.width c -> 0 <= round y < Canvas.height c ->
  getPixelColor (Canvas.getImageData c) x y
  = let '(r, g, b, _) := Canvas.pixel c (round x) (round y) in (Some r, Some g, Some b).
Proof.
  intros Hx Hy. unfold getPixelColor.
  change (ImageData.width (Canvas.getImageData c)) with (Canvas.width c).
  set (i := (round x + round y * Canvas.width c) * 4).
  replace i with (i + 0) at 1 by lia. replace (i + 2) with (i + 2) by lia.
  unfold i. rewrite !getImageData_index by lia.
  destruct (Canvas.pixel c (round x) (round y)) as [[[r g] b] a]. reflexivity.
Qed.

Section Painting.

Variables blockCountX blockCountY blockWidth : Z.
Variables px py : Z.

Let paint := fun ctx i cells => paintBlocks ctx blockCountX blockCountY blockWidth i cells.
Let covers := inBlock blockCountX blockCountY blockWidth.

Lemma paintBlocks_app (a b : list (option Pixel)) :
  forall ctx i,
    paint ctx i (a ++ b) = paint (paint ctx i a) (i + Z.of_nat (List.length a)) b.
Proof.
  unfold paint. induction a as [|[v|] a IH]; intros ctx i; cbn [app paintBlocks List.length].
  - now rewrite Z.add_0_r.
  - rewrite IH. f_equal. lia.
  - rewrite IH. f_equal. lia.
Qed.

Lemma paintBlocks_size (cells : list (option Pixel)) :
  forall ctx i,
    Canvas.width (paint ctx i cells) = Canvas.width ctx
    /\ Canvas.height (paint ctx i cells) = Canvas.height ctx.
Proof.
  unfold paint. induction cells as [|[v|] cells IH]; intros ctx i; cbn [paintBlocks].
  - split; reflexivity.
  - destruct (IH (Canvas.fillRect (Canvas.setFillStyle ctx v)
                    (Z.rem i blockCountX * blockWidth)
                    ((blockCountY - i / blockCountX - 1) * blockWidth)
                    (blockWidth + 1) (blockWidth + 1)) (i + 1)) as [Hw Hh].
    rewrite Hw, Hh. unfold Canvas.fillRect, Canvas.setFillStyle.
    destruct v as [[[r|] [g|]] [b|]]; cbn; destruct (Canvas.fillStyle ctx) as [[? ?] ?];
      split; reflexivity.
  - apply IH.
Qed.

(** A pixel that no painted block covers keeps its colour. *)
Lemma paintBlocks_outside (cells : list (option Pixel)) :
  forall ctx i,
    (forall n v, nth_error cells n = Some (Some v) -> covers (i + Z.of_nat n) px py = false) ->
    Canvas.pixel (paint ctx i cells) px py = Canvas.pixel ctx px py.
Proof.
  unfold paint, covers.
  induction cells as [|[v|] cells IH]; intros ctx i Hout; cbn [paintBlocks].
  - reflexivity.
  - rewrite IH.
    + pose proof (Hout 0%nat v eq_refl) as H0. rewrite Z.add_0_r in H0.
      unfold inBlock in H0. unfold Canvas.fillRect.
      destruct (Canvas.fillStyle (Canvas.setFillStyle ctx v)) as [[r g] b].
      cbn [Canvas.pixel]. rewrite H0.
      destruct v as [[[?|] [?|]] [?|]]; reflexivity.
    + intros n v' Hn. replace (i + 1 + Z.of_nat n) with (i + Z.of_nat (S n)) by lia.
      apply (Hout (S n) v'). exact Hn.
  - apply IH. intros n v' Hn.
    replace (i + 1 + Z.of_nat n) with (i + Z.of_nat (S n)) by lia.
    apply (Hout (S n) v'). exact Hn.
Qed.

(** A pixel covered by a painted block, and by none painted after it, has
    that block's colour. *)
Lemma paintBlocks_inside (pre post : list (option Pixel)) (r g b : Z) :
  forall ctx i,
    covers (i + Z.of_nat (List.length pre)) px py = true ->
    (forall n v, nth_error post n = Some (Some v) ->
                 covers (i + Z.of_nat (List.length pre) + 1 + Z.of_nat n) px py = false) ->
    Canvas.pixel (paint ctx i (pre ++ Some (Some r, Some g, Some b) :: post)) px py
    = (Canvas.clamp255 r, Canvas.clamp255 g, Canvas.clamp255 b, 255).
Proof.
  intros ctx i Hin Hout. rewrite paintBlocks_app.
  unfold paint at 1. cbn [paintBlocks]. fold (paint).
  set (ctx' := Canvas.fillRect _ _ _ _ _).
  change (paintBlocks ctx' blockCountX blockCountY blockWidth) with (paint ctx').
  rewrite paintBlocks_outside by exact Hout.
  unfold ctx', Canvas.fillRect, Canvas.setFillStyle. cbn [Canvas.fillStyle Canvas.pixel].
  unfold covers, inBlock in Hin. rewrite Hin. reflexivity.
Qed.

End Painting.

Lemma half_bounds (blockWidth : Z) :
  2 <= blockWidth ->
  1 <= (blockWidth + 1) / 2 <= blockWidth - 1 /\ 1 <= blockWidth / 2 <= blockWidth - 1.
Proof. intros H. split; split; Z.div_mod_to_equations; lia. Qed.

Section Geometry.

Variables blockCountX blockCountY blockWidth : Z.
Hypothesis columns_pos : 1 <= blockCountX.
Hypothesis blockWidth_two : 2 <= blockWidth.

Let covers := inBlock blockCountX blockCountY blockWidth.

Lemma same_block (j k : Z) :
  0 <= j -> 0 <= k ->
  Z.rem j blockCountX = Z.rem k blockCountX -> j / blockCountX = k / blockCountX -> j = k.
Proof.
  intros Hj Hk. rewrite !Z.rem_mod_nonneg by lia. intros Hm Hd.
  rewrite (Z.div_mod j blockCountX), (Z.div_mod k blockCountX) by lia.
  now rewrite Hm, Hd.
Qed.

(** The rectangles overlap by one pixel only: a centre lies in no other block. *)
Lemma covers_center (j k : Z) :
  0 <= j -> 0 <= k ->
  covers j (centerX blockCountX blockWidth k) (centerY blockCountX blockCountY blockWidth k)
  = (j =? k).
Proof.
  intros Hj Hk. unfold covers, inBlock, centerX, centerY.
  destruct (half_bounds blockWidth blockWidth_two) as [Hx Hy].
  set (dx := (blockWidth + 1) / 2) in *. set (dy := blockWidth / 2) in *.
  assert (Ha : 0 <= Z.rem j blockCountX) by (apply Z.rem_nonneg; lia).
  assert (Hb : 0 <= Z.rem k blockCountX) by (apply Z.rem_nonneg; lia).
  set (a := Z.rem j blockCountX) in *. set (b := Z.rem k blockCountX) in *.
  set (r := j / blockCountX) in *. set (q := k / blockCountX) in *.
  destruct (Z.eqb_spec j k) as [E|E].
  - subst k. subst b q.
    repeat (apply andb_true_intro; split); try apply Z.leb_le; try apply Z.ltb_lt; nia.
  - apply not_true_is_false. intros H.
    apply andb_prop in H as [H Hy2]. apply andb_prop in H as [H Hy1].
    apply andb_prop in H as [Hx1 Hx2].
    apply Z.leb_le in Hx1, Hy1. apply Z.ltb_lt in Hx2, Hy2.
    apply E, same_block; try assumption; fold a b r q.
    + assert (a <= b) by nia. assert (b <= a) by nia. lia.
    + assert (q <= r) by nia. assert (r <= q) by nia. lia.
Qed.

(** The bottom-left pixel belongs to block 0 only, the bottom-right pixel to
    the last block of row 0 only. *)
Lemma covers_left_corner (j : Z) :
  0 <= j -> 1 <= blockCountY ->
  covers j 0 (blockCountY * blockWidth - 1) = (j =? 0).
Proof.
  intros Hj Hrows. unfold covers, inBlock.
  assert (Ha : 0 <= Z.rem j blockCountX) by (apply Z.rem_nonneg; lia).
  assert (Hr : 0 <= j / blockCountX) by (apply Z.div_pos; lia).
  destruct (Z.eqb_spec j 0) as [E|E].
  - subst j. rewrite Z.rem_0_l, Z.div_0_l by lia.
    repeat (apply andb_true_intro; split); try apply Z.leb_le; try apply Z.ltb_lt; nia.
  - apply not_true_is_false. intros H.
    apply andb_prop in H as [H Hy2]. apply andb_prop in H as [H Hy1].
    apply andb_prop in H as [Hx1 Hx2].
    apply Z.leb_le in Hx1, Hy1. apply Z.ltb_lt in Hx2, Hy2.
    apply E, (same_block j 0);
      first [lia | rewrite ?Z.rem_0_l, ?Z.div_0_l by lia; nia].
Qed.

Lemma covers_right_corner (j : Z) :
  0 <= j -> 1 <= blockCountY ->
  covers j (blockCountX * blockWidth - 1) (blockCountY * blockWidth - 1)
  = (j =? blockCountX - 1).
Proof.
  intros Hj Hrows. unfold covers, inBlock.
  assert (Ha : 0 <= Z.rem j blockCountX < blockCountX)
    by (rewrite Z.rem_mod_nonneg by lia; apply Z.mod_pos_bound; lia).
  assert (Hr : 0 <= j / blockCountX) by (apply Z.div_pos; lia).
  assert (Elast : Z.rem (blockCountX - 1) blockCountX = blockCountX - 1)
    by (apply Z.rem_small; lia).
  assert (Dlast : (blockCountX - 1) / blockCountX = 0) by (apply Z.div_small; lia).
  destruct (Z.eqb_spec j (blockCountX - 1)) as [E|E].
  - subst j. rewrite Elast, Dlast.
    repeat (apply andb_true_intro; split); try apply Z.leb_le; try apply Z.ltb_lt; nia.
  - apply not_true_is_false. intros H.
    apply andb_prop in H as [H Hy2]. apply andb_prop in H as [H Hy1].
    apply andb_prop in H as [Hx1 Hx2].
    apply Z.leb_le in Hx1, Hy1. apply Z.ltb_lt in Hx2, Hy2.
    apply E, (same_block j (blockCountX - 1));
      first [lia | rewrite ?Elast, ?Dlast; nia].
Qed.

End Geometry.

(** ** Rounding the sample coordinates *)

#[local] Instance round_proper : Proper (Qeq ==> eq) round.
Proof. intros x y H. unfold round. now rewrite H. Qed.

#[local] Instance getPixelColor_proper (img : ImageData.t) :
  Proper (Qeq ==> Qeq ==> eq) (getPixelColor img).
Proof. intros x x' Hx y y' Hy. unfold getPixelColor. now rewrite Hx, Hy. Qed.

#[local] Instance sampleBlock_proper (img : ImageData.t) (n : Z) :
  Proper (Qeq ==> Qeq ==> eq) (sampleBlock img n).
Proof. intros x x' Hx y y' Hy. unfold sampleBlock. now rewrite Hx, Hy. Qed.

Lemma round_half (n : Z) : round (n # 2) = (n + 1) / 2.
Proof.
  unfold round.
  assert (E : ((n # 2) + (1 # 2) == (n + 1) # 2)%Q).
  { unfold Qeq, Qplus. cbn [Qnum Qden]. lia. }
  rewrite E. reflexivity.
Qed.

Lemma round_Z (n : Z) : round (inject_Z n) = n.
Proof.
  assert (E : (inject_Z n == (2 * n) # 2)%Q) by (unfold Qeq, inject_Z; cbn [Qnum Qden]; lia).
  rewrite E, round_half. Z.div_mod_to_equations. lia.
Qed.

Section Rounding.

Variable blockWidth : Z.
Variable B : Q.
Hypothesis B_int : (B == inject_Z blockWidth)%Q.

Lemma round_center_x (c : Z) :
  round (inject_Z c * B + B / 2) = c * blockWidth + (blockWidth + 1) / 2.
Proof.
  assert (E : (inject_Z c * B + B / 2 == (2 * (c * blockWidth) + blockWidth) # 2)%Q).
  { rewrite B_int, (Qmake_Qdiv _ 2), inject_Z_plus, !inject_Z_mult.
    change (inject_Z (Z.pos 2)) with (inject_Z 2). field. }
  rewrite E, round_half. Z.div_mod_to_equations. lia.
Qed.

Lemma round_center_y (h r : Z) :
  round (inject_Z h - inject_Z r * B - B / 2) = h - r * blockWidth - blockWidth / 2.
Proof.
  assert (E : (inject_Z h - inject_Z r * B - B / 2
               == (2 * (h - r * blockWidth) - blockWidth) # 2)%Q).
  { rewrite B_int, (Qmake_Qdiv _ 2).
    unfold Z.sub. rewrite !inject_Z_plus, !inject_Z_opp, !inject_Z_mult, !inject_Z_plus,
      !inject_Z_opp, !inject_Z_mult.
    change (inject_Z (Z.pos 2)) with (inject_Z 2). field. }
  rewrite E, round_half. Z.div_mod_to_equations. lia.
Qed.

End Rounding.

Lemma block_width_exact (blockCountX blockWidth : Z) :
  blockCountX <> 0 ->
  (inject_Z (blockCountX * blockWidth) / inject_Z blockCountX == inject_Z blockWidth)%Q.
Proof.
  intros Hn. rewrite inject_Z_mult. field.
  intros H. apply Hn. unfold Qeq, inject_Z in H. cbn [Qnum Qden] in H. lia.
Qed.

(** ** Sampling a painted frame *)

Lemma ceilDiv_bounds (a b : Z) :
  0 <= a -> 1 <= b -> a <= ceilDiv a b * b < a + b.
Proof. intros Ha Hb. unfold ceilDiv. Z.div_mod_to_equations. nia. Qed.

Lemma rows_pos (cells : list (option Pixel)) (blockCountX : Z) :
  1 <= blockCountX -> cells <> [] ->
  1 <= ceilDiv (Z.of_nat (List.length cells)) blockCountX.
Proof.
  intros Hc Hne.
  pose proof (ceilDiv_bounds (Z.of_nat (List.length cells)) blockCountX
                (Nat2Z.is_nonneg _) Hc) as H.
  destruct cells; [contradiction|]. cbn [List.length] in H.
  set (rows := ceilDiv _ _) in *. nia.
Qed.

Section PaintedFrame.

Variable cells : list (option Pixel).
Variables blockCountX blockWidth : Z.
Hypothesis columns_pos : 1 <= blockCountX.
Hypothesis blockWidth_two : 2 <= blockWidth.
Hypothesis cells_defined : Forall definedCell cells.
Hypothesis cells_nonempty : cells <> [].

Let blockCountY := ceilDiv (Z.of_nat (List.length cells)) blockCountX.
Let ctx :=
  paintBlocks (Canvas.createCanvas (blockCountX * blockWidth) (blockWidth * blockCountY))
    blockCountX blockCountY blockWidth 0 cells.

Lemma paintFrame_unfold :
  paintFrame cells blockCountX (blockCountX * blockWidth) = Canvas.getImageData ctx.
Proof.
  unfold paintFrame, ctx, blockCountY.
  replace (blockCountX * blockWidth / blockCountX) with blockWidth
    by (symmetry; rewrite Z.mul_comm; apply Z.div_mul; lia).
  reflexivity.
Qed.

Lemma ctx_size :
  Canvas.width ctx = blockCountX * blockWidth /\ Canvas.height ctx = blockCountY * blockWidth.
Proof.
  unfold ctx.
  destruct (paintBlocks_size blockCountX blockCountY blockWidth cells
              (Canvas.createCanvas (blockCountX * blockWidth) (blockWidth * blockCountY)) 0)
    as [Hw Hh].
  rewrite Hw, Hh. cbn [Canvas.createCanvas Canvas.width Canvas.height]. lia.
Qed.

(** The pixel of the canvas at a point that block [k] covers and no other
    block does. *)
Lemma ctx_pixel (px py k : Z) :
  0 <= k ->
  (forall j, 0 <= j -> inBlock blockCountX blockCountY blockWidth j px py = (j =? k)) ->
  (let '(r, g, b, _) := Canvas.pixel ctx px py in (Some r, Some g, Some b))
  = shown (Js.index cells k).
Proof.
  intros Hk Hcov. unfold Js.index.
  replace (k <? 0) with false by (symmetry; apply Z.ltb_ge; lia).
  destruct (nth_error cells (Z.to_nat k)) as [[v|]|] eqn:Hnth.
  - destruct (nth_error_split _ _ Hnth) as (pre & post & Hcells & Hpre).
    assert (Hv : definedCell (Some v)).
    { rewrite Forall_forall in cells_defined. apply cells_defined.
      eapply nth_error_In; eassumption. }
    destruct v as [[[r|] [g|]] [b|]]; try contradiction.
    unfold ctx. rewrite Hcells.
    rewrite paintBlocks_inside; [reflexivity | |].
    + rewrite Hpre, Hcov by lia. apply Z.eqb_eq. lia.
    + intros n v Hn. rewrite Hcov by lia. apply Z.eqb_neq. lia.
  - unfold ctx. rewrite paintBlocks_outside; [reflexivity|].
    intros n v Hn. rewrite Hcov by lia. apply Z.eqb_neq. intros E.
    replace (Z.to_nat k) with n in Hnth by lia. congruence.
  - unfold ctx. rewrite paintBlocks_outside; [reflexivity|].
    intros n v Hn. rewrite Hcov by lia. apply Z.eqb_neq. intros E.
    replace (Z.to_nat k) with n in Hnth by lia. congruence.
Qed.

Lemma sample_center (x y : Q) (k : Z) :
  0 <= k < blockCountY * blockCountX ->
  round x = centerX blockCountX blockWidth k ->
  round y = centerY blockCountX blockCountY blockWidth k ->
  getPixelColor (Canvas.getImageData ctx) x y = shown (Js.index cells k).
Proof.
  intros Hk Hx Hy. destruct ctx_size as [Hw Hh].
  destruct (half_bounds blockWidth blockWidth_two) as [Hdx Hdy].
  assert (Hcol : 0 <= Z.rem k blockCountX < blockCountX)
    by (rewrite Z.rem_mod_nonneg by lia; apply Z.mod_pos_bound; lia).
  assert (Hrow : 0 <= k / blockCountX < blockCountY)
    by (split; [apply Z.div_pos; lia | apply Z.div_lt_upper_bound; nia]).
  rewrite getPixelColor_canvas.
  - rewrite Hx, Hy. apply ctx_pixel; [lia|].
    intros j Hj. apply covers_center; assumption || lia.
  - rewrite Hx, Hw. unfold centerX. nia.
  - rewrite Hy, Hh. unfold centerY. nia.
Qed.

Lemma sample_left_corner (x y : Q) :
  round x = 0 -> round y = blockCountY * blockWidth - 1 ->
  getPixelColor (Canvas.getImageData ctx) x y = shown (Js.index cells 0).
Proof.
  intros Hx Hy. destruct ctx_size as [Hw Hh].
  pose proof (rows_pos cells blockCountX columns_pos cells_nonempty) as Hrows.
  fold blockCountY in Hrows.
  rewrite getPixelColor_canvas.
  - rewrite Hx, Hy. apply ctx_pixel; [lia|].
    intros j Hj. apply covers_left_corner; assumption || lia.
  - rewrite Hx, Hw. nia.
  - rewrite Hy, Hh. nia.
Qed.

Lemma sample_right_corner (x y : Q) :
  round x = blockCountX * blockWidth - 1 -> round y = blockCountY * blockWidth - 1 ->
  getPixelColor (Canvas.getImageData ctx) x y = shown (Js.index cells (blockCountX - 1)).
Proof.
  intros Hx Hy. destruct ctx_size as [Hw Hh].
  pose proof (rows_pos cells blockCountX columns_pos cells_nonempty) as Hrows.
  fold blockCountY in Hrows.
  rewrite getPixelColor_canvas.
  - rewrite Hx, Hy. apply ctx_pixel; [lia|].
    intros j Hj. apply covers_right_corner; assumption || lia.
  - rewrite Hx, Hw. nia.
  - rewrite Hy, Hh. nia.
Qed.

End PaintedFrame.

Section ReadingPainted.

Variable cells : list (option Pixel).
Variables blockCountX blockWidth : Z.
Hypothesis columns_four : 4 <= blockCountX.
Hypothesis blockWidth_two : 2 <= blockWidth.
Hypothesis cells_defined : Forall definedCell cells.
Hypothesis cells_nonempty : cells <> [].

Let blockCountY := ceilDiv (Z.of_nat (List.length cells)) blockCountX.
Let img := paintFrame cells blockCountX (blockCountX * blockWidth).
Let cell (k : Z) : Pixel := shown (Js.index cells k).
Let B : Q := (inject_Z (blockCountX * blockWidth) / inject_Z blockCountX)%Q.

Lemma img_size :
  ImageData.width img = blockCountX * blockWidth
  /\ ImageData.height img = blockCountY * blockWidth.
Proof.
  unfold img. rewrite paintFrame_unfold by lia.
  destruct (ctx_size cells blockCountX blockWidth) as [Hw Hh].
  split; [exact Hw | exact Hh].
Qed.

Lemma B_exact : (B == inject_Z blockWidth)%Q.
Proof. apply block_width_exact. lia. Qed.

(** A sample at the centre of block [k], with the coordinates as the reader
    computes them. *)
Lemma sample_at (x y : Q) (k : Z) :
  0 <= k < blockCountY * blockCountX ->
  (x == inject_Z (Z.rem k blockCountX) * B + B / 2)%Q ->
  (y == inject_Z (blockCountY * blockWidth) - inject_Z (k / blockCountX) * B - B / 2)%Q ->
  getPixelColor img x y = cell k.
Proof.
  intros Hk Hx Hy. rewrite Hx, Hy. unfold img. rewrite paintFrame_unfold by lia.
  apply sample_center; try assumption; try lia.
  - apply round_center_x, B_exact.
  - unfold centerY. apply round_center_y, B_exact.
Qed.

Lemma sample_row0 (x y : Q) (k : Z) :
  0 <= k < 4 ->
  (x == inject_Z k * B + B / 2)%Q ->
  (y == inject_Z (blockCountY * blockWidth) - B / 2)%Q ->
  getPixelColor img x y = cell k.
Proof.
  intros Hk Hx Hy.
  assert (Hrows : 1 <= blockCountY) by (apply rows_pos; assumption || lia).
  apply sample_at.
  - nia.
  - rewrite Z.rem_small by lia. exact Hx.
  - rewrite Z.div_small by lia. rewrite Hy. change (inject_Z 0) with 0%Q. ring.
Qed.

Lemma sample_corners :
  getPixelColor img 0 (inject_Z (blockCountY * blockWidth) - 1) = cell 0
  /\ getPixelColor img (inject_Z (blockCountX * blockWidth) - 1)
       (inject_Z (blockCountY * blockWidth) - 1) = cell (blockCountX - 1).
Proof.
  assert (Eminus : forall n, round (inject_Z n - 1) = n - 1).
  { intros n. change 1%Q with (inject_Z 1). unfold Qminus.
    rewrite <- inject_Z_opp, <- inject_Z_plus. apply round_Z. }
  unfold img. rewrite paintFrame_unfold by lia. split.
  - apply sample_left_corner; try assumption; try lia; [apply (round_Z 0) | apply Eminus].
  - apply sample_right_corner; try assumption; try lia; apply Eminus.
Qed.

(** The version the reader samples on a painted frame is the symbol of
    block 1. *)
Lemma readVersion_painted :
  colorToNum (cell 0) * 64 + colorToNum (cell (blockCountX - 1)) = blockCountX ->
  readVersion img = colorToNum (cell 1).
Proof.
  intros Hcols. destruct img_size as [Hw Hh]. destruct sample_corners as [Eleft Eright].
  unfold readVersion. rewrite Hw, Hh, Eleft, Eright, Hcols. fold B.
  unfold sampleBlock. replace (blockCountX =? 0) with false by (symmetry; apply Z.eqb_neq; lia).
  rewrite (sample_row0 _ _ 1); try lia; try reflexivity.
  change (inject_Z 1) with 1%Q. ring.
Qed.

(** The reader on a painted frame: the geometry it recovers and the blocks
    it collects, in terms of the cells that were painted. *)
Lemma readColorByteCode_painted :
  colorToNum (cell 0) * 64 + colorToNum (cell (blockCountX - 1)) = blockCountX ->
  let blockCount := colorToNum (cell 2) + colorToNum (cell 3) * 64 in
  blockCount + 5 <= blockCountY * blockCountX ->
  readColorByteCode img
  = mainColors (map cell (range (blockCount + 5))) blockCount blockCountX.
Proof.
  intros Hcols blockCount Hfit.
  assert (Hrows : 1 <= blockCountY) by (apply rows_pos; assumption || lia).
  destruct img_size as [Hw Hh]. destruct sample_corners as [Eleft Eright].
  unfold readColorByteCode. rewrite Hw, Hh. fold B.
  rewrite Eleft, Eright, Hcols. fold B.
  unfold sampleBlock. replace (blockCountX =? 0) with false by (symmetry; apply Z.eqb_neq; lia).
  cbn [map nth fst snd].
  rewrite (sample_row0 _ _ 2), (sample_row0 _ _ 3);
    try lia; try reflexivity; try (change (inject_Z 2) with 2%Q; change (inject_Z 3) with 3%Q; ring).
  fold blockCount. f_equal.
  apply map_ext_in. intros i Hi.
  apply in_map_iff in Hi. destruct Hi as (n & <- & Hn). apply in_seq in Hn.
  apply sample_at; [lia | reflexivity | reflexivity].
Qed.

End ReadingPainted.

(** ** Reading a painted frame back *)

Lemma shown_valid (p : Pixel) : validPixel p -> shown (Some (Some p)) = p.
Proof.
  destruct p as [[[r|] [g|]] [b|]]; unfold validPixel, shown; try contradiction.
  intros (Hr & Hg & Hb). unfold Canvas.clamp255.
  replace (Z.max 0 (Z.min r 255)) with r by lia.
  replace (Z.max 0 (Z.min g 255)) with g by lia.
  replace (Z.max 0 (Z.min b 255)) with b by lia. reflexivity.
Qed.

Lemma validPixel_defined (p : Pixel) : validPixel p -> definedCell (Some p).
Proof. destruct p as [[[r|] [g|]] [b|]]; unfold validPixel, definedCell; tauto. Qed.

Lemma numToColor_valid (s : Z) : 0 <= s -> validPixel (numToColor s).
Proof.
  intros Hs. rewrite numToColor_digits by exact Hs. unfold validPixel.
  pose proof (Z.mod_pos_bound (s / 16) 4). pose proof (Z.mod_pos_bound (s / 4) 4).
  pose proof (Z.mod_pos_bound s 4). lia.
Qed.

Lemma map_index_range {A B : Type} (f : option A -> B) (l : list A) (n : Z) :
  0 <= n <= Z.of_nat (List.length l) ->
  map (fun k => f (Js.index l k)) (range n) = map (fun c => f (Some c)) (firstn (Z.to_nat n) l).
Proof.
  intros Hn. unfold range. rewrite map_map.
  assert (Hm : (Z.to_nat n <= List.length l)%nat) by lia.
  revert Hm. generalize (Z.to_nat n) as m. clear Hn n.
  intros m. revert l. induction m as [|m IH]; intros l Hm; [reflexivity|].
  destruct l as [|a l]; [cbn in Hm; lia|].
  cbn [firstn map seq]. f_equal.
  rewrite <- seq_shift, map_map. rewrite <- IH by (cbn in Hm; lia).
  apply map_ext. intros k. unfold Js.index.
  replace (Z.of_nat (S k) <? 0) with false by (symmetry; apply Z.ltb_ge; lia).
  replace (Z.of_nat k <? 0) with false by (symmetry; apply Z.ltb_ge; lia).
  rewrite !Nat2Z.id. reflexivity.
Qed.

Lemma slice_map {A B : Type} (f : A -> B) (l : list A) (a b : Z) :
  Js.slice (map f l) a b = map f (Js.slice l a b).
Proof. unfold Js.slice. now rewrite length_map, skipn_map, firstn_map. Qed.

Lemma mainColors_map {A B : Type} (f : A -> B) (l : list A) (n c : Z) :
  mainColors (map f l) n c = map f (mainColors l n c).
Proof.
  unfold mainColors, Js.sliceFrom. rewrite !slice_map, length_map.
  destruct (n + 4 <? c); [reflexivity | now rewrite map_app].
Qed.

(** The cut looks at nothing before index 4 when row 0 has room for the
    header and the footer. *)
Lemma mainColors_skip4 {A : Type} (l l' : list A) (n c : Z) :
  0 <= n -> 5 <= c -> skipn 4 l = skipn 4 l' ->
  mainColors l n c = mainColors l' n c.
Proof.
  intros Hn Hc H. unfold mainColors.
  rewrite !slice_nonneg, !sliceFrom_nonneg by lia.
  change (Z.to_nat 4) with 4%nat. rewrite H.
  replace (Z.to_nat c) with (Z.to_nat (c - 4) + 4)%nat by lia.
  rewrite <- !skipn_skipn, H. reflexivity.
Qed.

(** The reader samples [n + 5] blocks; they are all the cut needs. *)
Lemma mainColors_sampled {A : Type} (l : list A) (n c : Z) :
  0 <= n -> 5 <= c ->
  Z.of_nat (List.length l) = Z.max c (n + 5) ->
  mainColors (firstn (Z.to_nat (n + 5)) l) n c = mainColors l n c.
Proof.
  intros Hn Hc Hlen. unfold mainColors.
  destruct (Z.ltb_spec (n + 4) c) as [Hrow|Hrow].
  - rewrite !slice_nonneg by lia. rewrite skipn_firstn_comm, firstn_firstn.
    f_equal. lia.
  - rewrite firstn_all2 by lia. reflexivity.
Qed.

Lemma Forall_firstn_skipn {A : Type} (P : A -> Prop) (n : nat) (l : list A) :
  Forall P l -> Forall P (firstn n l) /\ Forall P (skipn n l).
Proof. intros H. rewrite <- (firstn_skipn n l) in H. now apply Forall_app in H. Qed.

Section FrameRead.

Variable data : list Pixel.
Variables blockCountX blockWidth : Z.
Variable p : Pixel.
Hypothesis columns_range : 5 <= blockCountX <= 4095.
Hypothesis blockWidth_two : 2 <= blockWidth.
Hypothesis length_range_data : Z.of_nat (List.length data) <= 4095.
Hypothesis data_valid : Forall validPixel data.
Hypothesis p_defined : definedCell (Some p).

Let L := Z.of_nat (List.length data).
Let frame := frameBlocks data blockCountX.
Let cells := setVersion p frame.
Let h0 := numToColor (blockCountX / 64).
Let h2 := numToColor (L mod 64).
Let h3 := numToColor (L / 64).
Let footer := numToColor (blockCountX mod 64).

Lemma frame_defined : Forall definedCell frame.
Proof.
  assert (Hhd : Forall (fun v => definedCell (Some v))
                  ([h0; numToColor 1; h2; h3] ++ data)).
  { apply Forall_app. split.
    - repeat (constructor; [exact I|]). constructor.
    - eapply Forall_impl; [|exact data_valid]. intros v. apply validPixel_defined. }
  unfold frame.
  destruct (Z_lt_ge_dec (L + 4) (blockCountX - 1)) as [Hlt|Hge].
  - rewrite frameBlocks_one_row by exact Hlt.
    apply Forall_app; split; [|apply Forall_app; split].
    + apply Forall_map. exact Hhd.
    + apply Forall_forall. intros x Hx. apply repeat_spec in Hx. now subst.
    + constructor; [exact I | constructor].
  - rewrite frameBlocks_spliced by (fold L; lia).
    destruct (Forall_firstn_skipn _ (Z.to_nat (blockCountX - 1)) _ Hhd) as [Hf Hs].
    apply Forall_app; split; [|apply Forall_app; split].
    + apply Forall_map. exact Hf.
    + constructor; [exact I | constructor].
    + apply Forall_map. exact Hs.
Qed.

Lemma frame_header :
  exists tail, frame = Some h0 :: Some (numToColor 1) :: Some h2 :: Some h3 :: tail.
Proof.
  unfold frame.
  destruct (Z_lt_ge_dec (L + 4) (blockCountX - 1)) as [Hlt|Hge].
  - rewrite frameBlocks_one_row by exact Hlt. eexists. reflexivity.
  - rewrite frameBlocks_spliced by (fold L; lia).
    replace (Z.to_nat (blockCountX - 1)) with (S (S (S (S (Z.to_nat (blockCountX - 5))))))
      by lia.
    eexists. reflexivity.
Qed.

Lemma cells_facts :
  Forall definedCell cells
  /\ cells <> []
  /\ Z.of_nat (List.length cells) = Z.max blockCountX (L + 5)
  /\ skipn 4 cells = skipn 4 frame
  /\ Js.index cells 0 = Some (Some h0)
  /\ Js.index cells 1 = Some (Some p)
  /\ Js.index cells 2 = Some (Some h2)
  /\ Js.index cells 3 = Some (Some h3)
  /\ Js.index cells (blockCountX - 1) = Some (Some footer).
Proof.
  pose proof frame_defined as Hdef.
  pose proof (length_frameBlocks data blockCountX ltac:(lia)) as Hlen.
  pose proof (frameBlocks_footer data blockCountX ltac:(lia)) as Hfoot.
  fold frame L in Hlen, Hfoot. fold footer in Hfoot.
  destruct frame_header as [tail Hframe]. unfold cells. rewrite Hframe in *.
  cbn [setVersion]. repeat split; try reflexivity; try discriminate.
  - inversion Hdef as [|? ? H0 Hd1]; subst. inversion Hd1 as [|? ? H1 Hd2]; subst.
    constructor; [exact H0|]. constructor; [exact p_defined | exact Hd2].
  - exact Hlen.
  - unfold Js.index in *.
    replace (blockCountX - 1 <? 0) with false in * by (symmetry; apply Z.ltb_ge; lia).
    replace (Z.to_nat (blockCountX - 1)) with (S (S (Z.to_nat (blockCountX - 3)))) in *
      by lia.
    exact Hfoot.
Qed.

(** Whatever colour its version block holds, a painted frame reads back as
    the data that was framed. *)
Lemma readColorByteCode_frame :
  readColorByteCode (paintFrame cells blockCountX (blockCountX * blockWidth)) = data.
Proof.
  destruct cells_facts as (Hdef & Hne & Hlen & Hskip & E0 & _ & E2 & E3 & Elast).
  assert (V0 : 0 <= blockCountX / 64 <= 63) by (Z.div_mod_to_equations; lia).
  assert (Vf : 0 <= blockCountX mod 64 <= 63) by (Z.div_mod_to_equations; lia).
  assert (V2 : 0 <= L mod 64 <= 63) by (Z.div_mod_to_equations; lia).
  assert (V3 : 0 <= L / 64 <= 63) by (unfold L in *; Z.div_mod_to_equations; lia).
  assert (HL : 0 <= L) by (unfold L; lia).
  pose proof (ceilDiv_bounds (Z.of_nat (List.length cells)) blockCountX
                ltac:(lia) ltac:(lia)) as Hrows.
  rewrite readColorByteCode_painted; try assumption; try lia;
    rewrite ?E0, ?E2, ?E3, ?Elast;
    unfold h0, h2, h3, footer;
    rewrite ?shown_valid by (apply numToColor_valid; lia);
    rewrite ?colorToNum_numToColor by lia.
  - replace (L mod 64 + L / 64 * 64) with L by (Z.div_mod_to_equations; lia).
    rewrite (map_index_range shown cells (L + 5)) by lia.
    rewrite mainColors_map, mainColors_sampled by lia.
    rewrite (mainColors_skip4 cells frame) by (assumption || lia).
    unfold frame, L. rewrite mainColors_frameBlocks by lia.
    rewrite map_map. rewrite <- (map_id data) at 2.
    apply map_ext_in. intros v Hv. apply shown_valid.
    rewrite Forall_forall in data_valid. now apply data_valid.
  - Z.div_mod_to_equations. lia.
  - replace (L mod 64 + L / 64 * 64) with L by (Z.div_mod_to_equations; lia).
    lia.
Qed.

Lemma readVersion_frame :
  readVersion (paintFrame cells blockCountX (blockCountX * blockWidth))
  = colorToNum (shown (Some (Some p))).
Proof.
  destruct cells_facts as (Hdef & Hne & _ & _ & E0 & E1 & _ & _ & Elast).
  assert (V0 : 0 <= blockCountX / 64 <= 63) by (Z.div_mod_to_equations; lia).
  assert (Vf : 0 <= blockCountX mod 64 <= 63) by (Z.div_mod_to_equations; lia).
  rewrite readVersion_painted; try assumption; try lia; rewrite ?E0, ?E1, ?Elast.
  - reflexivity.
  - unfold h0, footer. rewrite !shown_valid by (apply numToColor_valid; lia).
    rewrite !colorToNum_numToColor by lia. Z.div_mod_to_equations. lia.
Qed.

End FrameRead.

Lemma frame_has_version_1 (data : list Pixel) (blockCountX : Z) :
  5 <= blockCountX ->
  setVersion (numToColor 1) (frameBlocks data blockCountX) = frameBlocks data blockCountX.
Proof.
  intros Hc.
  destruct (Z_lt_ge_dec (Z.of_nat (List.length data) + 4) (blockCountX - 1)) as [Hlt|Hge].
  - rewrite frameBlocks_one_row by exact Hlt. reflexivity.
  - rewrite frameBlocks_spliced by lia.
    replace (Z.to_nat (blockCountX - 1)) with (S (S (S (S (Z.to_nat (blockCountX - 5))))))
      by lia.
    reflexivity.
Qed.

(** ** The pipeline *)

Lemma table_index_nonneg (c : ascii) : In c BASE64_TABLE -> 0 <= base64CharToNum c.
Proof.
  assert (H : forallb (fun c => 0 <=? base64CharToNum c) BASE64_TABLE = true)
    by (vm_compute; reflexivity).
  rewrite forallb_forall in H. intros Hc. apply Z.leb_le, H, Hc.
Qed.

Lemma alphabet_in_table (c : ascii) : In c alphabet -> In c BASE64_TABLE.
Proof.
  unfold alphabet. intros H. rewrite <- (firstn_skipn 64 BASE64_TABLE).
  apply in_or_app. now left.
Qed.

(** The colours of an encoded text are colours the canvas keeps. *)
Lemma text_colors_valid (body : string) (k : nat) :
  Forall (fun c => In c alphabet) (list_ascii_of_string body) ->
  Forall validPixel (base64StringToColors (body ++ chars "=" k)).
Proof.
  intros Hbody. rewrite base64StringToColors_app. apply Forall_app. split.
  - unfold base64StringToColors. apply Forall_map.
    eapply Forall_impl; [|exact Hbody].
    intros c Hc. apply numToColor_valid, table_index_nonneg, alphabet_in_table, Hc.
  - unfold base64StringToColors, chars.
    rewrite list_ascii_of_string_of_list_ascii, map_repeat.
    apply Forall_forall. intros x Hx. apply repeat_spec in Hx. subst x.
    apply numToColor_valid. apply table_index_nonneg. vm_compute. tauto.
Qed.


Lemma length_text_colors (t : string) :
  List.length (base64StringToColors t) = String.length t.
Proof. unfold base64StringToColors. now rewrite length_map, length_list_ascii_of_string. Qed.

Section Recovery.

Variable decodeBase64 : string -> option value.

(** The retry loop undoes up to two sentinels read as [A], provided the
    decoder rejects the text as long as a sentinel is still missing. *)
Lemma base64ToObj_recovers (body : string) (k : nat) (x : value) :
  (k <= 2)%nat ->
  (forall r, (r < k)%nat -> decodeBase64 (body ++ chars "A" (k - r) ++ chars "=" r) = None) ->
  decodeBase64 (body ++ chars "=" k) = Some x ->
  base64ToObj decodeBase64 (body ++ chars "A" k) = Returns x.
Proof.
  intros Hk Hfail Hok. unfold base64ToObj.
  destruct k as [|[|[|k]]]; [| | |lia].
  - now apply base64ToObj_loop_success.
  - pose proof (Hfail 0%nat ltac:(lia)) as H0. cbn in H0.
    change (chars "A" 1) with (String "A" "").
    rewrite base64ToObj_loop_retry by (reflexivity || lia || exact H0).
    cbn [Ascii.eqb Bool.eqb]. now apply base64ToObj_loop_success.
  - pose proof (Hfail 0%nat ltac:(lia)) as H0. pose proof (Hfail 1%nat ltac:(lia)) as H1.
    cbn in H0, H1.
    assert (S0 : (body ++ chars "A" 2 = (body ++ "A") ++ String "A" "")%string)
      by (now rewrite str_app_assoc).
    assert (S1 : ((body ++ "A") ++ padding 1 = body ++ String "A" "=")%string)
      by (now rewrite str_app_assoc).
    rewrite S0, base64ToObj_loop_retry by (rewrite <- ?S0; reflexivity || lia || exact H0).
    cbn [Ascii.eqb Bool.eqb]. change (0 + 1) with 1.
    rewrite S1, base64ToObj_loop_retry by (reflexivity || lia || exact H1).
    cbn [Ascii.eqb Bool.eqb]. now apply base64ToObj_loop_success.
Qed.

End Recovery.

Lemma alphabet_check (s : string) :
  forallb (fun c => existsb (Ascii.eqb c) alphabet) (list_ascii_of_string s) = true ->
  Forall (fun c => In c alphabet) (list_ascii_of_string s).
Proof.
  intros H. rewrite forallb_forall in H. apply Forall_forall. intros c Hc.
  specialize (H c Hc). apply existsb_exists in H. destruct H as (c' & Hin & Heq).
  apply Ascii.eqb_eq in Heq. now subst.
Qed.

(** ** Failures of the decoder *)

Lemma getProp_throws (v : value) (k : string) (e : exn) :
  getProp v k = Throws e -> e = TypeError.
Proof. destruct v; cbn; intros H; inversion H; reflexivity. Qed.

Lemma base64ToObj_loop_throws (decodeBase64 : string -> option value) (n : nat) :
  forall r v e,
    base64ToObj_loop decodeBase64 n r v = Throws e ->
    e = Error "Couldnt Find ColorByteCode.".
Proof.
  induction n as [|n IH]; intros r v e; cbn [base64ToObj_loop]; [discriminate|].
  destruct (r <? 4); [|discriminate].
  destruct (decodeBase64 v); [discriminate|].
  destruct (negb _); [intros H; now inversion H|].
  destruct (r >? 4); [intros H; now inversion H|].
  apply IH.
Qed.

Lemma fromData_throws (DEFAULT_KEY : string) (data : value) (e : exn) :
  fromData DEFAULT_KEY data = Throws e ->
  e = TypeError \/ e = Error "Invalid ColorByteCode Type.".
Proof.
  unfold fromData.
  repeat match goal with
  | |- bind (getProp ?a ?b) _ = _ -> _ =>
      let H := fresh "H" in
      destruct (getProp a b) eqn:H; cbn [bind];
      [|apply getProp_throws in H; intros E; inversion E; subst; now left]
  | |- (if ?c then _ else _) = _ -> _ => destruct c
  | |- (let _ := _ in _) = _ -> _ => cbv zeta
  end;
  intros E; inversion E; now right.
Qed.

(** The only failures of [colorByteCodeToData] are [Couldnt Find
    ColorByteCode.], [Invalid ColorByteCode Type.] and the TypeError of a
    property read. *)
Lemma colorByteCodeToData_throws (DEFAULT_KEY : string) (decodeBase64 : string -> option value)
    (imageData : ImageData.t) (e : exn) :
  colorByteCodeToData DEFAULT_KEY decodeBase64 imageData = Throws e ->
  e = Error "Couldnt Find ColorByteCode."
  \/ e = Error "Invalid ColorByteCode Type."
  \/ e = TypeError.
Proof.
  unfold colorByteCodeToData, base64ToObj.
  destruct (base64ToObj_loop _ _ _ _) as [wire|e'] eqn:Hloop; cbn [bind].
  - intros H. apply fromData_throws in H. tauto.
  - intros H. inversion H; subst. left.
    eapply base64ToObj_loop_throws. exact Hloop.
Qed.

(** ** The two claims on the whole decoder *)

(** C5, as the code has it. Decoding has no version failure.  Whatever the
    raster, [colorByteCodeToData] returns a record or fails with [Couldnt
    Find ColorByteCode.], [Invalid ColorByteCode Type.] or the TypeError of a
    property read.  And the version block is sampled without being compared
    with 1: for a frame painted with any symbol [ver] in its version block
    (5 to 4095 blocks per row, an integer block width of at least 2 pixels,
    at most 4095 data blocks with channels in [0, 255]) the reader samples
    [ver] there and still returns the framed data, and decoding goes on with
    their text. *)
Theorem version_is_not_enforced :
  (forall (DEFAULT_KEY : string) (decodeBase64 : string -> option value)
          (imageData : ImageData.t) (e : exn),
      colorByteCodeToData DEFAULT_KEY decodeBase64 imageData = Throws e ->
      e = Error "Couldnt Find ColorByteCode."
      \/ e = Error "Invalid ColorByteCode Type."
      \/ e = TypeError)
  /\ (forall (DEFAULT_KEY : string) (decodeBase64 : string -> option value)
             (data : list Pixel) (blockCountX blockWidth ver : Z),
      5 <= blockCountX <= 4095 -> 2 <= blockWidth ->
      Z.of_nat (List.length data) <= 4095 -> Forall validPixel data ->
      0 <= ver <= 63 ->
      let img :=
        paintFrame (setVersion (numToColor ver) (frameBlocks data blockCountX))
          blockCountX (blockCountX * blockWidth) in
      readVersion img = ver
      /\ readColorByteCode img = data
      /\ colorByteCodeToData DEFAULT_KEY decodeBase64 img
         = (wire <- base64ToObj decodeBase64 (colorsToBase64String data) ;;
            fromData DEFAULT_KEY wire)).
Proof.
  split; [exact colorByteCodeToData_throws|].
  intros DEFAULT_KEY decodeBase64 data blockCountX blockWidth ver Hc Hw Hlen Hdata Hver img.
  assert (Hread : readColorByteCode img = data)
    by (apply readColorByteCode_frame; try assumption; exact I).
  split; [|split].
  - unfold img. rewrite readVersion_frame by (try assumption; exact I).
    rewrite shown_valid by (apply numToColor_valid; lia).
    apply colorToNum_numToColor. exact Hver.
  - exact Hread.
  - unfold colorByteCodeToData. fold img. now rewrite Hread.
Qed.

Lemma version_is_not_enforced_witness :
  let data := base64StringToColors "gaFz" in
  let img := paintFrame (setVersion (numToColor 2) (frameBlocks data 8)) 8 (8 * 2) in
  (5 <= 8 <= 4095 /\ 2 <= 2 /\ Z.of_nat (List.length data) <= 4095
   /\ Forall validPixel data /\ 0 <= 2 <= 63)
  /\ readVersion img = 2
  /\ readColorByteCode img = data
  /\ colorByteCodeToData "default key" (fun _ => None) img
     = (wire <- base64ToObj (fun _ => None) (colorsToBase64String data) ;;
        fromData "default key" wire).
Proof.
  assert (Hvalid : Forall validPixel (base64StringToColors "gaFz"))
    by (apply (text_colors_valid "gaFz" 0), alphabet_check; reflexivity).
  split.
  - repeat split; try lia; exact Hvalid || (cbn; lia).
  - apply (proj2 version_is_not_enforced "default key"%string (fun _ => None)
             (base64StringToColors "gaFz") 8 2 2); try lia; exact Hvalid || (cbn; lia).
Defined.

(** C5, as stated, fails: this raster carries version 2 in its version
    block, and decoding it returns a record. *)
Lemma version_2_raster_is_decoded :
  let text := "g6FzkxAOAKFvhaFrAaFzAaFuAKFnCKFyAKFjkZQAAAgI"%string in
  let areas := VArr [VArr [VNum 0; VNum 0; VNum 8; VNum 8]] in
  let size := VArr [VNum 16; VNum 14; VNum 0] in
  let wire :=
    VObj [ ("s"%string, size);
           ("o"%string, VObj [ ("k"%string, VNum 1); ("s"%string, VNum 1);
                               ("n"%string, VNum 0); ("g"%string, VNum 8);
                               ("r"%string, VNum 0) ]);
           ("c"%string, areas) ] in
  let decodeBase64 := fun s => if String.eqb s text then Some wire else None in
  let img :=
    paintFrame (setVersion (numToColor 2) (frameBlocks (base64StringToColors text) 8)) 8 16 in
  readVersion img = 2
  /\ colorByteCodeToData "default key" decodeBase64 img
     = Returns
         (mkDecoded
            (mkEncodeOptions (VNum 8) (VNum 1) (VNum 0) (VNum 0) (VStr "default key"))
            areas size).
Proof. split; vm_compute; reflexivity. Qed.




(** ** Further properties of the codec *)

(** X1. Text over the 64-character alphabet converted to colours and back
    is the same text. *)
Theorem text_roundtrip_on_alphabet (t : string) :
  Forall (fun c => In c alphabet) (list_ascii_of_string t) ->
  colorsToBase64String (base64StringToColors t) = t.
Proof. apply text_colors_roundtrip. Qed.

Lemma text_roundtrip_on_alphabet_witness :
  colorsToBase64String (base64StringToColors "g6Fzkx+/09") = "g6Fzkx+/09"%string.
Proof. apply (text_roundtrip_on_alphabet "g6Fzkx+/09"), alphabet_check. reflexivity. Defined.

(** X2. Padding recovery: a text whose last [k <= 2] sentinels were read as
    [A] is decoded to what the text with its sentinels decodes to, when the
    decoder rejects the text as long as a sentinel is missing. *)
Theorem padding_recovery (decodeBase64 : string -> option value)
    (body : string) (k : nat) (x : value) :
  (k <= 2)%nat ->
  (forall r, (r < k)%nat ->
             decodeBase64 (body ++ chars "A" (k - r) ++ chars "=" r)%string = None) ->
  decodeBase64 (body ++ chars "=" k)%string = Some x ->
  base64ToObj decodeBase64 (body ++ chars "A" k) = Returns x.
Proof. apply base64ToObj_recovers. Qed.

Lemma padding_recovery_witness :
  base64ToObj (fun s => if String.eqb s "kQE=" then Some (VArr [VNum 1]) else None) "kQEA"
  = Returns (VArr [VNum 1]).
Proof.
  apply (padding_recovery
           (fun s => if String.eqb s "kQE=" then Some (VArr [VNum 1]) else None)
           "kQE" 1 (VArr [VNum 1])).
  - lia.
  - intros r Hr. assert (r = 0%nat) by lia. subst r. reflexivity.
  - reflexivity.
Defined.

(** X3. A text that fails to decode and does not end in [A] is given up at
    once with [Couldnt Find ColorByteCode.]. *)
Theorem retry_needs_a_trailing_A (decodeBase64 : string -> option value)
    (u : string) (c : ascii) :
  decodeBase64 (u ++ String c "")%string = None -> c <> "A"%char ->
  base64ToObj decodeBase64 (u ++ String c "")
  = Throws (Error "Couldnt Find ColorByteCode.").
Proof.
  intros Hfail Hc. unfold base64ToObj.
  rewrite base64ToObj_loop_retry by (reflexivity || lia || exact Hfail).
  apply Ascii.eqb_neq in Hc. now rewrite Hc.
Qed.

Lemma retry_needs_a_trailing_A_witness :
  base64ToObj (fun _ => None) "kQEB" = Throws (Error "Couldnt Find ColorByteCode.").
Proof.
  apply (retry_needs_a_trailing_A (fun _ => None) "kQE" "B"); [reflexivity | discriminate].
Defined.

(** X4. What [drawColorByteCodeBlock] paints, [readColorByteCode] reads back:
    for 5 to 4095 blocks per row, an integer block width of at least 2 and
    at most 4095 data blocks with channels in [0, 255]. *)
Theorem raster_roundtrip (data : list Pixel) (blockCountX blockWidth : Z) :
  5 <= blockCountX <= 4095 -> 2 <= blockWidth ->
  Z.of_nat (List.length data) <= 4095 -> Forall validPixel data ->
  readColorByteCode (drawColorByteCodeBlock data blockCountX (blockCountX * blockWidth))
  = data.
Proof.
  intros Hc Hw Hlen Hdata. unfold drawColorByteCodeBlock.
  rewrite <- (frame_has_version_1 data blockCountX) by lia.
  apply readColorByteCode_frame; assumption || exact I.
Qed.

Lemma raster_roundtrip_witness :
  readColorByteCode (drawColorByteCodeBlock (map numToColor (range 20)) 8 (8 * 3))
  = map numToColor (range 20).
Proof.
  apply (raster_roundtrip (map numToColor (range 20)) 8 3); try lia.
  - vm_compute. discriminate.
  - apply Forall_forall. intros s Hs.
    apply in_map_iff in Hs. destruct Hs as (n & <- & Hn).
    apply in_map_iff in Hn. destruct Hn as (m & <- & _).
    apply numToColor_valid. lia.
Defined.

(** X5. [getNearIndex] with any partition count of at least 2 and any
    maximum that [partition - 1] divides (as 3 divides 255, so that the
    levels are integers): for a value in [0, max] the index returned is that
    of a nearest level [i * (max / (partition - 1))], the highest such index
    on a tie. *)
Theorem nearest_level_any_partition (v partition max : Z) :
  2 <= partition -> max mod (partition - 1) = 0 -> 0 <= v <= max ->
  let step := max / (partition - 1) in
  let r := getNearIndexMax (Some v) partition max in
  0 <= r < partition
  /\ (forall j, 0 <= j < partition -> Z.abs (r * step - v) <= Z.abs (j * step - v))
  /\ (forall j, 0 <= j < partition ->
                Z.abs (j * step - v) = Z.abs (r * step - v) -> j <= r).
Proof.
  intros Hp _ Hv. exact (getNearIndexMax_nearest v partition max ltac:(lia) Hv).
Qed.

Lemma nearest_level_any_partition_witness :
  let step := 4 / (3 - 1) in
  let r := getNearIndexMax (Some 1) 3 4 in
  0 <= r < 3
  /\ (forall j, 0 <= j < 3 -> Z.abs (r * step - 1) <= Z.abs (j * step - 1))
  /\ (forall j, 0 <= j < 3 -> Z.abs (j * step - 1) = Z.abs (r * step - 1) -> j <= r).
Proof. apply (nearest_level_any_partition 1 3 4); try lia. reflexivity. Defined.

(** X6. With the option sub-record present, [fromData] throws
    [Invalid ColorByteCode Type.] exactly when the area list is falsy or of
    length 0, or the size is falsy or not of length 3, and returns the
    remapped record otherwise. *)
Theorem fromData_validation (DEFAULT_KEY : string)
    (fields ofields : list (string * value)) :
  lookupField "o" fields = VObj ofields ->
  let c := lookupField "c" fields in
  let s := lookupField "s" fields in
  fromData DEFAULT_KEY (VObj fields)
  = if truthy c && negb (lengthIs c 0) && truthy s && lengthIs s 3
    then Returns
           (mkDecoded
              (mkEncodeOptions (lookupField "g" ofields) (lookupField "s" ofields)
                 (lookupField "r" ofields) (lookupField "n" ofields)
                 (if truthy (lookupField "k" ofields) then VStr DEFAULT_KEY else VNull))
              c s)
    else Throws (Error "Invalid ColorByteCode Type.").
Proof. apply fromData_with_options. Qed.

Lemma fromData_validation_witness :
  fromData "default key"
    (VObj [ ("s"%string, VArr [VNum 16; VNum 14]);
            ("o"%string, VObj [("g"%string, VNum 8)]);
            ("c"%string, VArr [VArr [VNum 0; VNum 0; VNum 8; VNum 8]]) ])
  = Throws (Error "Invalid ColorByteCode Type.").
Proof.
  exact (fromData_validation "default key"
           [ ("s"%string, VArr [VNum 16; VNum 14]);
             ("o"%string, VObj [("g"%string, VNum 8)]);
             ("c"%string, VArr [VArr [VNum 0; VNum 0; VNum 8; VNum 8]]) ]
           [("g"%string, VNum 8)] eq_refl).
Defined.

(** ** The quantizer on arbitrary samples *)

(** The per-channel decision of [getNearIndex], for every integer. *)
Lemma getNearIndex_closed_form (v : Z) :
  getNearIndex (Some v) 4
  = if 255 <? v then 0
    else if v <=? 42 then 0
    else if v <=? 127 then 1
    else if v <=? 212 then 2
    else 3.
Proof.
  unfold getNearIndex, getNearIndexMax.
  change (Z.to_nat 4) with 4%nat.
  cbn [getNearIndex_loop option_map gtNum].
  change (255 / (4 - 1)) with 85. change (0 + 1) with 1. change (1 + 1) with 2.
  change (2 + 1) with 3. change (3 + 1) with 4.
  split_comparisons; try reflexivity; lia.
Qed.

Lemma getNearIndex_bounds (v : chan) : 0 <= getNearIndex v 4 <= 3.
Proof.
  destruct v as [v|]; [|cbv; split; discriminate].
  rewrite getNearIndex_closed_form. split_comparisons; lia.
Qed.

Lemma colorToNum_bounds (p : Pixel) : 0 <= colorToNum p <= 63.
Proof.
  destruct p as [[r g] b].
  unfold colorToNum, R_CHANNEL_PARTITION, G_CHANNEL_PARTITION, B_CHANNEL_PARTITION.
  pose proof (getNearIndex_bounds r). pose proof (getNearIndex_bounds g).
  pose proof (getNearIndex_bounds b). lia.
Qed.

(** X7. The decision thresholds of the quantizer: a channel value up to 42
    is level 0, up to 127 level 1, up to 212 level 2, up to 255 level 3;
    negative values are level 0, and so is every value above 255, where the
    first comparison against [max] already leaves the loop; an undefined
    channel runs the loop to its end and gives level 3. *)
Theorem getNearIndex_thresholds :
  (forall v : Z,
      getNearIndex (Some v) 4
      = if 255 <? v then 0
        else if v <=? 42 then 0
        else if v <=? 127 then 1
        else if v <=? 212 then 2
        else 3)
  /\ getNearIndex None 4 = 3.
Proof. split; [exact getNearIndex_closed_form | reflexivity]. Qed.

(** X8. Whatever the sample, undefined channels included, [colorToNum] is a
    symbol in [0, 63], and quantizing the colour of that symbol gives the
    same symbol again. *)
Theorem colorToNum_is_a_symbol (p : Pixel) :
  0 <= colorToNum p <= 63
  /\ colorToNum (numToColor (colorToNum p)) = colorToNum p.
Proof.
  pose proof (colorToNum_bounds p) as H.
  split; [exact H | apply colorToNum_numToColor; exact H].
Qed.

(** X9. A sampled colour whose channels are within 42 of the colour of a
    symbol, inside [0, 255], is read as that symbol. *)
Theorem quantizer_tolerates_noise (s r g b lr lg lb : Z) :
  0 <= s <= 63 ->
  numToColor s = (Some lr, Some lg, Some lb) ->
  0 <= r <= 255 -> 0 <= g <= 255 -> 0 <= b <= 255 ->
  Z.abs (r - lr) <= 42 -> Z.abs (g - lg) <= 42 -> Z.abs (b - lb) <= 42 ->
  colorToNum (Some r, Some g, Some b) = s.
Proof.
  intros Hs Hcol Hr Hg Hb Dr Dg Db.
  rewrite numToColor_digits in Hcol by lia. inversion Hcol; subst lr lg lb. clear Hcol.
  assert (Er : 0 <= (s / 16) mod 4 <= 3) by (Z.div_mod_to_equations; lia).
  assert (Eg : 0 <= (s / 4) mod 4 <= 3) by (Z.div_mod_to_equations; lia).
  assert (Eb : 0 <= s mod 4 <= 3) by (Z.div_mod_to_equations; lia).
  assert (Es : s = ((s / 16) mod 4 * 4 + (s / 4) mod 4) * 4 + s mod 4)
    by (Z.div_mod_to_equations; lia).
  set (dr := (s / 16) mod 4) in *. set (dg := (s / 4) mod 4) in *.
  set (db := s mod 4) in *.
  unfold colorToNum, R_CHANNEL_PARTITION, G_CHANNEL_PARTITION, B_CHANNEL_PARTITION.
  rewrite !getNearIndex_closed_form.
  assert (Hlevels : forall d v, 0 <= d <= 3 -> 0 <= v <= 255 -> Z.abs (v - d * 85) <= 42 ->
            (if 255 <? v then 0 else if v <=? 42 then 0 else if v <=? 127 then 1
             else if v <=? 212 then 2 else 3) = d)
    by (intros d v Hd Hv Hdist; split_comparisons; lia).
  rewrite (Hlevels dr r), (Hlevels dg g), (Hlevels db b) by assumption.
  symmetry. exact Es.
Qed.

Lemma quantizer_tolerates_noise_witness :
  colorToNum (Some 60, Some 200, Some 213) = 27.
Proof.
  apply (quantizer_tolerates_noise 27 60 200 213 85 170 255);
    try reflexivity; cbn; lia.
Defined.

(** ** The alphabet table *)

Lemma numToBase64Char_symbol (i : Z) :
  0 <= i <= 63 -> exists c, numToBase64Char i = Some c /\ In c alphabet.
Proof.
  intros Hi.
  assert (H : forallb (fun i => match numToBase64Char i with
                                | Some c => existsb (Ascii.eqb c) alphabet
                                | None => false
                                end) (range 64) = true) by (vm_compute; reflexivity).
  rewrite forallb_forall in H. specialize (H i).
  assert (Hin : In i (range 64)).
  { unfold range. apply in_map_iff. exists (Z.to_nat i). split; [lia|].
    apply in_seq. lia. }
  specialize (H Hin). destruct (numToBase64Char i) as [c|]; [|discriminate].
  exists c. split; [reflexivity|].
  apply existsb_exists in H. destruct H as (c' & Hc' & E).
  apply Ascii.eqb_eq in E. now subst.
Qed.

Lemma colorsToBase64String_cons (p : Pixel) (colors : list Pixel) :
  colorsToBase64String (p :: colors)
  = (appendChar "" (numToBase64Char (colorToNum p)) ++ colorsToBase64String colors)%string.
Proof.
  change (p :: colors) with ([p] ++ colors)%list.
  now rewrite colorsToBase64String_app.
Qed.

(** X10. The text read from any list of samples has one character per
    sample, each of them one of the 64 alphabet characters: neither the
    padding sentinel nor the word [undefined] is ever produced. *)
Theorem colorsToBase64String_in_alphabet (colors : list Pixel) :
  String.length (colorsToBase64String colors) = List.length colors
  /\ Forall (fun c => In c alphabet) (list_ascii_of_string (colorsToBase64String colors)).
Proof.
  induction colors as [|p colors [IHlen IHall]]; [split; [reflexivity | constructor]|].
  rewrite colorsToBase64String_cons.
  destruct (numToBase64Char_symbol (colorToNum p) (colorToNum_bounds p)) as (c & -> & Hc).
  cbn [appendChar String.append String.length list_ascii_of_string List.length].
  split; [now rewrite IHlen | now constructor].
Qed.

(** The index [findIndex] returns is -1 or that of an element satisfying the
    test. *)
Lemma findIndexFrom_found {A : Type} (p : A -> bool) (l : list A) :
  forall i r, Js.findIndexFrom p i l = r -> r <> -1 -> 0 <= i ->
    exists x, nth_error l (Z.to_nat (r - i)) = Some x /\ p x = true /\ i <= r.
Proof.
  induction l as [|a l IH]; intros i r Hr Hne Hi; cbn [Js.findIndexFrom] in Hr.
  - congruence.
  - destruct (p a) eqn:Hp.
    + subst r. exists a. rewrite Z.sub_diag. repeat split; [exact Hp | lia].
    + destruct (IH (i + 1) r Hr Hne ltac:(lia)) as (x & Hx & Hpx & Hle).
      exists x. replace (Z.to_nat (r - i)) with (S (Z.to_nat (r - (i + 1)))) by lia.
      repeat split; [exact Hx | exact Hpx | lia].
Qed.

(** X11. [base64CharToNum] and [numToBase64Char] are inverse to each other
    on the table: every index from 0 to 64 holds a character whose index it
    is, every character has index -1 or sits at its index, and outside 0 to
    64 there is no character. *)
Theorem table_lookups_are_inverse :
  (forall i, 0 <= i <= 64 ->
             exists c, numToBase64Char i = Some c /\ base64CharToNum c = i)
  /\ (forall c, base64CharToNum c = -1
                \/ numToBase64Char (base64CharToNum c) = Some c)
  /\ (forall i, i < 0 \/ 64 < i -> numToBase64Char i = None).
Proof.
  split; [|split].
  - intros i Hi.
    assert (H : forallb (fun i => match numToBase64Char i with
                                  | Some c => base64CharToNum c =? i
                                  | None => false
                                  end) (range 65) = true) by (vm_compute; reflexivity).
    rewrite forallb_forall in H. specialize (H i).
    assert (Hin : In i (range 65)).
    { unfold range. apply in_map_iff. exists (Z.to_nat i). split; [lia|].
      apply in_seq. lia. }
    specialize (H Hin). destruct (numToBase64Char i) as [c|]; [|discriminate].
    exists c. split; [reflexivity | now apply Z.eqb_eq].
  - intros c. destruct (Z.eq_dec (base64CharToNum c) (-1)) as [E|E]; [now left | right].
    destruct (findIndexFrom_found _ BASE64_TABLE 0 _ eq_refl E ltac:(lia))
      as (x & Hx & Hpx & Hle).
    fold (Js.findIndex (fun v => Ascii.eqb v c) BASE64_TABLE) in Hx, Hle.
    fold (base64CharToNum c) in Hx, Hle.
    apply Ascii.eqb_eq in Hpx. subst x.
    unfold numToBase64Char, Js.index.
    replace (base64CharToNum c <? 0) with false by (symmetry; apply Z.ltb_ge; lia).
    now rewrite Z.sub_0_r in Hx.
  - intros i Hi. unfold numToBase64Char, Js.index.
    destruct (Z.ltb_spec i 0) as [Hneg|Hpos]; [reflexivity|].
    apply nth_error_None. change (List.length BASE64_TABLE) with 65%nat. lia.
Qed.

Lemma table_lookups_are_inverse_witness :
  (exists c, numToBase64Char 62 = Some c /\ base64CharToNum c = 62)
  /\ numToBase64Char 65 = None.
Proof.
  split.
  - apply (proj1 table_lookups_are_inverse 62). lia.
  - apply (proj2 (proj2 table_lookups_are_inverse) 65). lia.
Defined.

(** ** Symbols outside 0 to 63 *)

Lemma getNearIndex_low (v : Z) : v <= 42 -> getNearIndex (Some v) 4 = 0.
Proof.
  intros Hv. rewrite getNearIndex_closed_form.
  replace (255 <? v) with false by (symmetry; apply Z.ltb_ge; lia).
  replace (v <=? 42) with true by (symmetry; apply Z.leb_le; lia).
  reflexivity.
Qed.

Lemma numToColor_mod_64 (code : Z) : 0 <= code -> numToColor code = numToColor (code mod 64).
Proof.
  intros Hc. pose proof (Z.mod_pos_bound code 64 ltac:(lia)) as Hm.
  rewrite (numToColor_digits code), (numToColor_digits (code mod 64)) by lia.
  replace ((code mod 64 / 16) mod 4) with ((code / 16) mod 4)
    by (Z.div_mod_to_equations; lia).
  replace ((code mod 64 / 4) mod 4) with ((code / 4) mod 4)
    by (Z.div_mod_to_equations; lia).
  replace ((code mod 64) mod 4) with (code mod 4) by (Z.div_mod_to_equations; lia).
  reflexivity.
Qed.

Lemma colorToNum_numToColor_any (code : Z) :
  colorToNum (numToColor code) = if code <? 0 then 0 else code mod 64.
Proof.
  destruct (Z.ltb_spec code 0) as [Hneg|Hpos].
  - unfold numToColor, colorToNum,
      R_CHANNEL_PARTITION, G_CHANNEL_PARTITION, B_CHANNEL_PARTITION.
    change (255 / (4 - 1)) with 85.
    assert (Hq : code / 4 < 0) by (Z.div_mod_to_equations; lia).
    assert (Hqq : code / 4 / 4 < 0) by (Z.div_mod_to_equations; lia).
    pose proof (Z.rem_nonpos code 4 ltac:(lia) ltac:(lia)) as Hb.
    pose proof (Z.rem_nonpos (code / 4) 4 ltac:(lia) ltac:(lia)) as Hg.
    pose proof (Z.rem_nonpos (code / 4 / 4) 4 ltac:(lia) ltac:(lia)) as Hr.
    rewrite !getNearIndex_low by lia. reflexivity.
  - rewrite numToColor_mod_64 by exact Hpos.
    apply colorToNum_numToColor. pose proof (Z.mod_pos_bound code 64). lia.
Qed.

(** X12. The symbol read from the colour of any integer code: the code
    modulo 64 when it is not negative, 0 when it is (the colour of a negative
    code has no channel above 0). *)
Theorem quantizer_on_any_integer (code : Z) :
  colorToNum (numToColor code) = if code <? 0 then 0 else code mod 64.
Proof. apply colorToNum_numToColor_any. Qed.

Lemma frameBlocks_header (data : list Pixel) (blockCountX : Z) :
  5 <= blockCountX ->
  exists tail,
    frameBlocks data blockCountX
    = Some (numToColor (blockCountX / 64)) :: Some (numToColor 1)
        :: Some (numToColor (Z.of_nat (List.length data) mod 64))
        :: Some (numToColor (Z.of_nat (List.length data) / 64)) :: tail.
Proof.
  intros Hc.
  destruct (Z_lt_ge_dec (Z.of_nat (List.length data) + 4) (blockCountX - 1)) as [Hlt|Hge].
  - rewrite frameBlocks_one_row by exact Hlt. eexists. reflexivity.
  - rewrite frameBlocks_spliced by lia.
    replace (Z.to_nat (blockCountX - 1)) with (S (S (S (S (Z.to_nat (blockCountX - 5))))))
      by lia.
    eexists. reflexivity.
Qed.

(** X13. The header of a frame holds the blocks per row and the data length
    modulo 4096 only: with at least 5 blocks per row, the symbols of blocks 0
    and [blockCountX - 1] give [blockCountX mod 4096], block 1 gives the
    version 1, and blocks 2 and 3 give the length modulo 4096. *)
Theorem frame_header_wraps (data : list Pixel) (blockCountX : Z) :
  5 <= blockCountX ->
  let cells := frameBlocks data blockCountX in
  let symbol := fun k => colorToNum (shown (Js.index cells k)) in
  symbol 0 * 64 + symbol (blockCountX - 1) = blockCountX mod 4096
  /\ symbol 1 = 1
  /\ symbol 2 + symbol 3 * 64 = Z.of_nat (List.length data) mod 4096.
Proof.
  intros Hc cells symbol. unfold symbol, cells.
  rewrite (frameBlocks_footer data blockCountX) by lia.
  destruct (frameBlocks_header data blockCountX Hc) as [tail ->].
  replace (Js.index (_ :: _ :: _ :: _ :: tail) 0) with (Some (Some (numToColor (blockCountX / 64))))
    by reflexivity.
  replace (Js.index (_ :: _ :: _ :: _ :: tail) 1) with (Some (Some (numToColor 1)))
    by reflexivity.
  replace (Js.index (_ :: _ :: _ :: _ :: tail) 2)
    with (Some (Some (numToColor (Z.of_nat (List.length data) mod 64)))) by reflexivity.
  replace (Js.index (_ :: _ :: _ :: _ :: tail) 3)
    with (Some (Some (numToColor (Z.of_nat (List.length data) / 64)))) by reflexivity.
  assert (HL : 0 <= Z.of_nat (List.length data)) by lia.
  rewrite !shown_valid
    by (apply numToColor_valid; try lia; Z.div_mod_to_equations; lia).
  rewrite !colorToNum_numToColor_any.
  replace (blockCountX / 64 <? 0) with false
    by (symmetry; apply Z.ltb_ge; Z.div_mod_to_equations; lia).
  replace (blockCountX mod 64 <? 0) with false
    by (symmetry; apply Z.ltb_ge; Z.div_mod_to_equations; lia).
  replace (Z.of_nat (List.length data) / 64 <? 0) with false
    by (symmetry; apply Z.ltb_ge; Z.div_mod_to_equations; lia).
  replace (Z.of_nat (List.length data) mod 64 <? 0) with false
    by (symmetry; apply Z.ltb_ge; Z.div_mod_to_equations; lia).
  cbn [Z.ltb Z.compare].
  repeat split; Z.div_mod_to_equations; lia.
Qed.

Lemma frame_header_wraps_witness :
  let cells := frameBlocks (repeat (numToColor 7) 4100) 8 in
  let symbol := fun k => colorToNum (shown (Js.index cells k)) in
  symbol 0 * 64 + symbol (8 - 1) = 8 mod 4096
  /\ symbol 1 = 1
  /\ symbol 2 + symbol 3 * 64 = Z.of_nat (List.length (repeat (numToColor 7) 4100)) mod 4096.
Proof. apply (frame_header_wraps (repeat (numToColor 7) 4100) 8). lia. Defined.

(** ** Text of any characters *)

Lemma char_reads_back (c : ascii) :
  numToBase64Char (colorToNum (numToColor (base64CharToNum c))) = Some (readBack c).
Proof. destruct c as [[] [] [] [] [] [] [] []]; vm_compute; reflexivity. Qed.

Lemma char_reads_back_clamped (c : ascii) :
  numToBase64Char (colorToNum (shown (Some (Some (numToColor (base64CharToNum c))))))
  = Some (readBack c).
Proof. destruct c as [[] [] [] [] [] [] [] []]; vm_compute; reflexivity. Qed.

Lemma text_reads_back_any (t : string) :
  colorsToBase64String (base64StringToColors t)
  = string_of_list_ascii (map readBack (list_ascii_of_string t)).
Proof.
  induction t as [|c t IH]; [reflexivity|].
  change (base64StringToColors (String c t))
    with (numToColor (base64CharToNum c) :: base64StringToColors t).
  rewrite colorsToBase64String_cons, char_reads_back, IH. reflexivity.
Qed.

(** X14. Text of any characters converted to colours and back: every
    character outside the 64-character alphabet (the padding sentinel and
    the characters that are not in the table) comes back as [A], the others
    as they were. *)
Theorem text_roundtrip_any_text (t : string) :
  colorsToBase64String (base64StringToColors t)
  = string_of_list_ascii (map readBack (list_ascii_of_string t)).
Proof. apply text_reads_back_any. Qed.

(** ** The canvas clamps what it is given *)

Lemma clamp255_idem (c : Z) : Canvas.clamp255 (Canvas.clamp255 c) = Canvas.clamp255 c.
Proof. unfold Canvas.clamp255. lia. Qed.

Lemma shown_is_valid (v : Pixel) : definedCell (Some v) -> validPixel (shown (Some (Some v))).
Proof.
  destruct v as [[[r|] [g|]] [b|]]; try contradiction. intros _.
  unfold shown, validPixel, Canvas.clamp255. lia.
Qed.

Lemma setFillStyle_shown (ctx : Canvas.t) (v : Pixel) :
  definedCell (Some v) ->
  Canvas.setFillStyle ctx (shown (Some (Some v))) = Canvas.setFillStyle ctx v.
Proof.
  destruct v as [[[r|] [g|]] [b|]]; try contradiction. intros _.
  unfold shown, Canvas.setFillStyle. now rewrite !clamp255_idem.
Qed.

Lemma paintBlocks_shown (blockCountX blockCountY blockWidth : Z) (cells : list (option Pixel)) :
  Forall definedCell cells ->
  forall ctx i,
    paintBlocks ctx blockCountX blockCountY blockWidth i
      (map (option_map (fun v => shown (Some (Some v)))) cells)
    = paintBlocks ctx blockCountX blockCountY blockWidth i cells.
Proof.
  induction 1 as [|[v|] cells Hv Hcells IH]; intros ctx i; cbn [map option_map paintBlocks].
  - reflexivity.
  - now rewrite setFillStyle_shown, IH.
  - apply IH.
Qed.

Lemma paintFrame_shown (cells : list (option Pixel)) (blockCountX width : Z) :
  Forall definedCell cells ->
  paintFrame (map (option_map (fun v => shown (Some (Some v)))) cells) blockCountX width
  = paintFrame cells blockCountX width.
Proof. intros H. unfold paintFrame. now rewrite length_map, paintBlocks_shown. Qed.

Lemma sliceFrom_map {A B : Type} (f : A -> B) (l : list A) (a : Z) :
  Js.sliceFrom (map f l) a = map f (Js.sliceFrom l a).
Proof. unfold Js.sliceFrom. now rewrite slice_map, length_map. Qed.

(** Framing commutes with a change of the data colours that leaves the
    colours of the symbols alone. *)
Lemma frameBlocks_map (f : Pixel -> Pixel) (data : list Pixel) (blockCountX : Z) :
  (forall s, 0 <= s -> f (numToColor s) = numToColor s) -> 0 <= blockCountX ->
  frameBlocks (map f data) blockCountX = map (option_map f) (frameBlocks data blockCountX).
Proof.
  intros Hf Hc. unfold frameBlocks. rewrite length_map.
  set (L := Z.of_nat (List.length data)).
  assert (HL : 0 <= L) by (unfold L; lia).
  set (h0 := numToColor (blockCountX / 64)).
  set (h2 := numToColor (Z.rem L 64)).
  set (h3 := numToColor (L / 64)).
  set (footer := numToColor (Z.rem blockCountX 64)).
  assert (E : h0 :: numToColor 1 :: h2 :: h3 :: map f data
              = map f (h0 :: numToColor 1 :: h2 :: h3 :: data)).
  { cbn [map]. unfold h0, h2, h3.
    rewrite !Hf; try reflexivity; try lia.
    - apply Z.div_pos; lia.
    - rewrite Z.rem_mod_nonneg by lia. apply Z.mod_pos_bound. lia.
    - apply Z.div_pos; lia. }
  assert (Ef : f footer = footer).
  { unfold footer. apply Hf.
    rewrite Z.rem_mod_nonneg by lia. apply Z.mod_pos_bound. lia. }
  rewrite E, length_map. clear E.
  set (hd := h0 :: numToColor 1 :: h2 :: h3 :: data).
  destruct (Z.of_nat (List.length hd) <? blockCountX - 1).
  - rewrite !map_app, !map_map. unfold Js.fill. rewrite map_repeat.
    cbn [map option_map]. now rewrite Ef.
  - rewrite !map_app, slice_map, sliceFrom_map, !map_map.
    cbn [map option_map]. now rewrite Ef.
Qed.

Lemma frameBlocks_defined (data : list Pixel) (blockCountX : Z) :
  1 <= blockCountX -> Forall (fun v => definedCell (Some v)) data ->
  Forall definedCell (frameBlocks data blockCountX).
Proof.
  intros Hc Hdata. set (L := Z.of_nat (List.length data)).
  assert (Hhd : Forall (fun v => definedCell (Some v))
                  ([numToColor (blockCountX / 64); numToColor 1; numToColor (L mod 64);
                    numToColor (L / 64)] ++ data)).
  { apply Forall_app. split; [|exact Hdata].
    repeat (constructor; [exact I|]). constructor. }
  destruct (Z_lt_ge_dec (L + 4) (blockCountX - 1)) as [Hlt|Hge].
  - rewrite frameBlocks_one_row by exact Hlt.
    apply Forall_app; split; [|apply Forall_app; split].
    + apply Forall_map. exact Hhd.
    + apply Forall_forall. intros x Hx. apply repeat_spec in Hx. now subst.
    + constructor; [exact I | constructor].
  - rewrite frameBlocks_spliced by (fold L; lia).
    destruct (Forall_firstn_skipn _ (Z.to_nat (blockCountX - 1)) _ Hhd) as [Hf Hs].
    apply Forall_app; split; [|apply Forall_app; split].
    + apply Forall_map. exact Hf.
    + constructor; [exact I | constructor].
    + apply Forall_map. exact Hs.
Qed.

(** Data whose channels are numbers are read back clamped to [0, 255]. *)
Lemma readColorByteCode_draw_defined (data : list Pixel) (blockCountX blockWidth : Z) :
  5 <= blockCountX <= 4095 -> 2 <= blockWidth ->
  Z.of_nat (List.length data) <= 4095 ->
  Forall (fun v => definedCell (Some v)) data ->
  readColorByteCode (drawColorByteCodeBlock data blockCountX (blockCountX * blockWidth))
  = map (fun v => shown (Some (Some v))) data.
Proof.
  intros Hc Hw Hlen Hdata. unfold drawColorByteCodeBlock.
  rewrite <- paintFrame_shown by (apply frameBlocks_defined; [lia | exact Hdata]).
  rewrite <- frameBlocks_map
    by (try lia; intros s Hs; apply shown_valid, numToColor_valid; exact Hs).
  rewrite <- (frame_has_version_1 _ blockCountX) by lia.
  apply readColorByteCode_frame; try assumption; try exact I.
  - now rewrite length_map.
  - apply Forall_map. eapply Forall_impl; [|exact Hdata].
    intros v. apply shown_is_valid.
Qed.

Lemma text_colors_defined (t : string) :
  Forall (fun v => definedCell (Some v)) (base64StringToColors t).
Proof. unfold base64StringToColors. apply Forall_map, Forall_forall. intros c _. exact I. Qed.

Lemma text_reads_back_clamped (t : string) :
  colorsToBase64String (map (fun v => shown (Some (Some v))) (base64StringToColors t))
  = string_of_list_ascii (map readBack (list_ascii_of_string t)).
Proof.
  induction t as [|c t IH]; [reflexivity|].
  change (base64StringToColors (String c t))
    with (numToColor (base64CharToNum c) :: base64StringToColors t).
  cbn [map]. rewrite colorsToBase64String_cons, char_reads_back_clamped, IH. reflexivity.
Qed.

(** X15. The text channel through the raster: text of any characters, at
    most 4095 of them, drawn with 5 to 4095 blocks per row and an integer
    block width of at least 2, is read back with [A] in place of every
    character outside the 64-character alphabet and is otherwise unchanged. *)
Theorem text_through_raster (t : string) (blockCountX blockWidth : Z) :
  5 <= blockCountX <= 4095 -> 2 <= blockWidth ->
  Z.of_nat (String.length t) <= 4095 ->
  colorsToBase64String
    (readColorByteCode
       (drawColorByteCodeBlock (base64StringToColors t) blockCountX
          (blockCountX * blockWidth)))
  = string_of_list_ascii (map readBack (list_ascii_of_string t)).
Proof.
  intros Hc Hw Hlen.
  rewrite readColorByteCode_draw_defined; try assumption.
  - apply text_reads_back_clamped.
  - now rewrite length_text_colors.
  - apply text_colors_defined.
Qed.

Lemma text_through_raster_witness :
  colorsToBase64String
    (readColorByteCode (drawColorByteCodeBlock (base64StringToColors "k?E=") 6 (6 * 2)))
  = "kAEA"%string.
Proof. apply (text_through_raster "k?E=" 6 2); try lia. vm_compute. discriminate. Defined.

(** ** Size of the raster *)

Lemma length_flat_map_const {A B : Type} (f : A -> list B) (n : nat) (l : list A) :
  (forall a, List.length (f a) = n) ->
  List.length (flat_map f l) = (List.length l * n)%nat.
Proof.
  intros Hf. induction l as [|a l IH]; [reflexivity|].
  cbn [flat_map List.length]. rewrite length_app, Hf, IH. lia.
Qed.

Lemma length_getImageData (c : Canvas.t) :
  0 <= Canvas.width c -> 0 <= Canvas.height c ->
  Z.of_nat (List.length (ImageData.data (Canvas.getImageData c)))
  = 4 * Canvas.width c * Canvas.height c.
Proof.
  intros Hw Hh. unfold Canvas.getImageData. cbn [ImageData.data].
  rewrite (length_flat_map_const _ (Z.to_nat (Canvas.width c) * 4)).
  - rewrite length_range. nia.
  - intros py. rewrite (length_flat_map_const _ 4).
    + now rewrite length_range.
    + intros px. destruct (Canvas.pixel c px py) as [[[? ?] ?] ?]. reflexivity.
Qed.

(** X16. The raster [drawColorByteCodeBlock] returns, for [L] data blocks,
    at least one block per row and an integer block width: it is as wide as
    asked, its height is the block width times the number of rows that the
    [max (blockCountX, L + 5)] framed blocks take, one row when data, header
    and footer fit a row, and its buffer holds 4 bytes per pixel. *)
Theorem raster_size (data : list Pixel) (blockCountX blockWidth : Z) :
  1 <= blockCountX -> 1 <= blockWidth ->
  let L := Z.of_nat (List.length data) in
  let img := drawColorByteCodeBlock data blockCountX (blockCountX * blockWidth) in
  let rows := ceilDiv (Z.max blockCountX (L + 5)) blockCountX in
  ImageData.width img = blockCountX * blockWidth
  /\ ImageData.height img = rows * blockWidth
  /\ Z.of_nat (List.length (ImageData.data img))
     = 4 * (blockCountX * blockWidth) * (rows * blockWidth)
  /\ (L + 5 <= blockCountX -> rows = 1).
Proof.
  intros Hc Hw L img rows.
  assert (Hrows : 1 <= rows).
  { pose proof (ceilDiv_bounds (Z.max blockCountX (L + 5)) blockCountX ltac:(lia) Hc) as H.
    fold rows in H. nia. }
  unfold img, drawColorByteCodeBlock. rewrite paintFrame_unfold by exact Hc.
  destruct (ctx_size (frameBlocks data blockCountX) blockCountX blockWidth) as [Ewidth Eheight].
  rewrite length_frameBlocks in Ewidth, Eheight |- * by exact Hc.
  fold L rows in Ewidth, Eheight |- *.
  split; [exact Ewidth|]. split; [exact Eheight|]. split.
  - rewrite length_getImageData; rewrite ?Ewidth, ?Eheight; nia.
  - intros Hfit. unfold rows. rewrite Z.max_l by lia.
    unfold ceilDiv. replace (- blockCountX) with (-1 * blockCountX) by lia.
    rewrite Z.div_mul by lia. reflexivity.
Qed.

Lemma raster_size_witness :
  let img := drawColorByteCodeBlock (map numToColor (range 20)) 8 (8 * 3) in
  ImageData.width img = 24 /\ ImageData.height img = 12
  /\ Z.of_nat (List.length (ImageData.data img)) = 1152.
Proof.
  intros img.
  destruct (raster_size (map numToColor (range 20)) 8 3 ltac:(lia) ltac:(lia))
    as (Hw & Hh & Hd & _).
  split; [exact Hw | split; [exact Hh | exact Hd]].
Defined.

(** ** The remap on any wire value *)

Lemma getProp_returns (v : value) (k : string) :
  notNullish v = true -> exists x, getProp v k = Returns x.
Proof. destruct v; intros H; try discriminate; eexists; reflexivity. Qed.

Lemma getProp_nullish (v : value) (k : string) :
  notNullish v = false -> getProp v k = Throws TypeError.
Proof. destruct v; intros H; try discriminate; reflexivity. Qed.

Lemma truthy_notNullish (v : value) : truthy v = true -> notNullish v = true.
Proof. destruct v; intros H; try discriminate; reflexivity. Qed.

(** [fromData] on a value that has a non-nullish [o]: every property read
    succeeds and the four checks decide. *)
Lemma fromData_options_present (DEFAULT_KEY : string) (data o : value) :
  getProp data "o" = Returns o -> notNullish o = true ->
  exists g s r n k c sz,
    fromData DEFAULT_KEY data
    = if truthy c && negb (lengthIs c 0) && truthy sz && lengthIs sz 3
      then Returns
             (mkDecoded
                (mkEncodeOptions g s r n (if truthy k then VStr DEFAULT_KEY else VNull)) c sz)
      else Throws (Error "Invalid ColorByteCode Type.").
Proof.
  intros Ho Hobj.
  assert (Hdata : notNullish data = true) by (destruct data; try discriminate; reflexivity).
  destruct (getProp_returns o "g" Hobj) as [g Hg].
  destruct (getProp_returns o "s" Hobj) as [s Hs].
  destruct (getProp_returns o "r" Hobj) as [r Hr].
  destruct (getProp_returns o "n" Hobj) as [n Hn].
  destruct (getProp_returns o "k" Hobj) as [k Hk].
  destruct (getProp_returns data "c" Hdata) as [c Hc].
  destruct (getProp_returns data "s" Hdata) as [sz Hsz].
  exists g, s, r, n, k, c, sz.
  unfold fromData. rewrite Ho. cbn [bind]. rewrite Hg, Hs, Hr, Hn, Hk, Hc, Hsz.
  cbn [bind areas size orb]. unfold lengthIs.
  destruct (truthy c) eqn:Tc; cbn [negb andb]; [|reflexivity].
  destruct (getProp_returns c "length" (truthy_notNullish c Tc)) as [lc ->].
  cbn [bind]. destruct (strictEqNum lc 0); cbn [negb andb orb]; [reflexivity|].
  destruct (truthy sz) eqn:Ts; cbn [negb andb]; [|reflexivity].
  destruct (getProp_returns sz "length" (truthy_notNullish sz Ts)) as [ls ->].
  cbn [bind]. destruct (strictEqNum ls 3); reflexivity.
Qed.

(** X17. [fromData] throws the TypeError of a property read exactly when its
    argument is [undefined] or [null], or has an [o] that is: every other
    failure is the [Invalid ColorByteCode Type.] of its own checks. *)
Theorem fromData_type_error_iff (DEFAULT_KEY : string) (data : value) :
  fromData DEFAULT_KEY data = Throws TypeError
  <-> notNullish data = false
      \/ exists o, getProp data "o" = Returns o /\ notNullish o = false.
Proof.
  split.
  - intros Hthrow. destruct (notNullish data) eqn:Hdata; [right | now left].
    destruct (getProp_returns data "o" Hdata) as [o Ho].
    exists o. split; [exact Ho|].
    destruct (notNullish o) eqn:Hobj; [|reflexivity].
    destruct (fromData_options_present DEFAULT_KEY data o Ho Hobj)
      as (g & s & r & n & k & c & sz & E).
    rewrite E in Hthrow. destruct (_ && _); discriminate.
  - intros [Hdata|(o & Ho & Hobj)]; unfold fromData.
    + now rewrite getProp_nullish.
    + rewrite Ho. cbn [bind]. now rewrite getProp_nullish.
Qed.

(** X18. What [fromData] returns, whatever it was given: the key is the
    default key or [null], the areas are truthy and their [length] is not 0,
    the size is truthy and its [length] is 3. *)
Theorem fromData_postcondition (DEFAULT_KEY : string) (data : value) (result : Decoded) :
  fromData DEFAULT_KEY data = Returns result ->
  (hashKey (encodeOptions result) = VStr DEFAULT_KEY \/ hashKey (encodeOptions result) = VNull)
  /\ truthy (areas result) = true /\ lengthIs (areas result) 0 = false
  /\ truthy (size result) = true /\ lengthIs (size result) 3 = true.
Proof.
  intros Hret.
  destruct (notNullish data) eqn:Hdata;
    [|unfold fromData in Hret; rewrite getProp_nullish in Hret by exact Hdata; discriminate].
  destruct (getProp_returns data "o" Hdata) as [o Ho].
  destruct (notNullish o) eqn:Hobj.
  2:{ unfold fromData in Hret. rewrite Ho in Hret. cbn [bind] in Hret.
      rewrite getProp_nullish in Hret by exact Hobj. discriminate. }
  destruct (fromData_options_present DEFAULT_KEY data o Ho Hobj)
    as (g & s & r & n & k & c & sz & E).
  rewrite E in Hret.
  destruct (truthy c) eqn:Tc; [|discriminate].
  destruct (lengthIs c 0) eqn:Lc; [discriminate|].
  destruct (truthy sz) eqn:Ts; [|discriminate].
  destruct (lengthIs sz 3) eqn:Ls; [|discriminate].
  cbn [negb andb] in Hret. injection Hret as <-.
  cbn [encodeOptions hashKey areas size].
  repeat split; try assumption. destruct (truthy k); [now left | now right].
Qed.

Lemma fromData_postcondition_witness :
  let areas := VArr [VArr [VNum 0; VNum 0; VNum 8; VNum 8]] in
  let size := VArr [VNum 16; VNum 14; VNum 0] in
  let result :=
    mkDecoded (mkEncodeOptions (VNum 8) VUndefined VUndefined VUndefined VNull) areas size in
  (hashKey (encodeOptions result) = VStr "default key" \/ hashKey (encodeOptions result) = VNull)
  /\ truthy (areas) = true /\ lengthIs areas 0 = false
  /\ truthy size = true /\ lengthIs size 3 = true.
Proof.
  intros areas size result.
  apply (fromData_postcondition "default key"
           (VObj [ ("s"%string, size); ("o"%string, VObj [("g"%string, VNum 8)]);
                   ("c"%string, areas) ]) result).
  reflexivity.
Defined.

(** X19. The wire object is stable under decoding: when [fromData] accepts
    the wire object of a record, the wire object of what it returns is the
    same wire object. *)
Theorem wire_object_is_stable (DEFAULT_KEY : string) (o : EncodeOptions)
    (a sz : value) (result : Decoded) :
  fromData DEFAULT_KEY (toData o a sz) = Returns result ->
  toData (encodeOptions result) (areas result) (size result) = toData o a sz.
Proof.
  set (ofields :=
         [ ("k"%string, VNum (if notNullish (hashKey o) then 1 else 0));
           ("s"%string, VNum (if truthy (isSwap o) then 1 else 0));
           ("n"%string, VNum (if truthy (isNega o) then 1 else 0));
           ("g"%string, gridSize o);
           ("r"%string, VNum (if truthy (isRotate o) then 1 else 0)) ]).
  pose proof (fromData_with_options DEFAULT_KEY
                [("s"%string, sz); ("o"%string, VObj ofields); ("c"%string, a)]
                ofields eq_refl) as E.
  change (VObj [("s"%string, sz); ("o"%string, VObj ofields); ("c"%string, a)])
    with (toData o a sz) in E.
  rewrite E. cbn [lookupField String.eqb Ascii.eqb Bool.eqb ofields].
  destruct (_ && _); [|discriminate].
  intros Hret. injection Hret as <-.
  unfold toData. cbn [encodeOptions areas size hashKey isSwap isNega isRotate gridSize].
  rewrite !truthy_flag.
  destruct (notNullish (hashKey o)); reflexivity.
Qed.

Lemma wire_object_is_stable_witness :
  let o := mkEncodeOptions (VNum 8) (VBool true) (VBool false) (VBool false) (VStr "my key") in
  let areas := VArr [VArr [VNum 0; VNum 0; VNum 8; VNum 8]] in
  let size := VArr [VNum 16; VNum 14; VNum 0] in
  toData (mkEncodeOptions (VNum 8) (VNum 1) (VNum 0) (VNum 0) (VStr "default key")) areas size
  = toData o areas size.
Proof.
  intros o areas size.
  apply (wire_object_is_stable "default key" o areas size
           (mkDecoded (mkEncodeOptions (VNum 8) (VNum 1) (VNum 0) (VNum 0) (VStr "default key"))
              areas size)).
  reflexivity.
Defined.

(** ** The retry loop when nothing decodes *)



Lemma chars_snoc (c : ascii) (n : nat) : chars c (S n) = (chars c n ++ String c "")%string.
Proof.
  unfold chars. induction n as [|n IH]; [reflexivity|].
  change (repeat c (S (S n))) with (c :: repeat c (S n)).
  change (repeat c (S n)) with (c :: repeat c n) at 2.
  cbn [string_of_list_ascii String.append]. now rewrite IH.
Qed.



Section Rejected.

Variable decodeBase64 : string -> option value.
Hypothesis nothing_decodes : forall s, decodeBase64 s = None.



End Rejected.



(** ** Rasters that carry no frame *)

Lemma undefined_pixels_read_as_slash (n : nat) :
  colorsToBase64String (repeat (None, None, None) n) = chars "/" n.
Proof.
  induction n as [|n IH]; [reflexivity|].
  change (repeat (None, None, None) (S n))
    with ((None, None, None) :: repeat (@None Z, @None Z, @None Z) n).
  rewrite colorsToBase64String_cons, IH. reflexivity.
Qed.

(** With 0 blocks per row every coordinate is infinite or NaN and every
    sample is [undefined]: the reader finds 4095 blocks announced and cuts
    8195 pixels out of the 4100 it sampled. *)
Lemma readColorByteCode_zero_columns (imageData : ImageData.t) :
  colorToNum (getPixelColor imageData 0 (inject_Z (ImageData.height imageData) - 1)) = 0 ->
  colorToNum
    (getPixelColor imageData (inject_Z (ImageData.width imageData) - 1)
       (inject_Z (ImageData.height imageData) - 1)) = 0 ->
  readColorByteCode imageData = repeat (None, None, None) (Z.to_nat 8195).
Proof.
  intros Hleft Hright. unfold readColorByteCode. rewrite Hleft, Hright.
  change (0 * 64 + 0) with 0. unfold sampleBlock. change (0 =? 0) with true.
  cbv beta iota zeta.
  change (colorToNum (None, None, None)) with 63.
  cbn [map nth]. change (63 + 63 * 64) with 4095.
  vm_compute. reflexivity.
Qed.

(** X21. A raster whose two bottom corners read as symbol 0 (as black
    corners do) announces 0 blocks per row: the reader returns 8195
    undefined pixels, the text is 8195 times [/], and decoding throws
    [Couldnt Find ColorByteCode.] when the decoder rejects that text. *)
Theorem raster_with_black_corners (DEFAULT_KEY : string)
    (decodeBase64 : string -> option value) (imageData : ImageData.t) :
  colorToNum (getPixelColor imageData 0 (inject_Z (ImageData.height imageData) - 1)) = 0 ->
  colorToNum
    (getPixelColor imageData (inject_Z (ImageData.width imageData) - 1)
       (inject_Z (ImageData.height imageData) - 1)) = 0 ->
  readColorByteCode imageData = repeat (None, None, None) (Z.to_nat 8195)
  /\ colorsToBase64String (readColorByteCode imageData) = chars "/" (Z.to_nat 8195)
  /\ (decodeBase64 (chars "/" (Z.to_nat 8195)) = None ->
      colorByteCodeToData DEFAULT_KEY decodeBase64 imageData
      = Throws (Error "Couldnt Find ColorByteCode.")).
Proof.
  intros Hleft Hright.
  pose proof (readColorByteCode_zero_columns imageData Hleft Hright) as Hread.
  assert (Htext : colorsToBase64String (readColorByteCode imageData) = chars "/" (Z.to_nat 8195))
    by (rewrite Hread; apply undefined_pixels_read_as_slash).
  split; [exact Hread|]. split; [exact Htext|].
  intros Hnone. unfold colorByteCodeToData. rewrite Htext. unfold base64ToObj.
  replace (Z.to_nat 8195) with (S (Z.to_nat 8194)) in Hnone |- * by lia.
  rewrite chars_snoc in Hnone |- *.
  rewrite base64ToObj_loop_retry by (reflexivity || lia || exact Hnone).
  reflexivity.
Qed.

Lemma raster_with_black_corners_witness :
  let imageData := ImageData.mk 2 1 [0; 0; 0; 255; 10; 20; 30; 255] in
  readColorByteCode imageData = repeat (None, None, None) (Z.to_nat 8195)
  /\ colorByteCodeToData "default key" (fun _ => None) imageData
     = Throws (Error "Couldnt Find ColorByteCode.").
Proof.
  intros imageData.
  destruct (raster_with_black_corners "default key" (fun _ => None) imageData)
    as (Hread & _ & Hthrow); [vm_compute; reflexivity | vm_compute; reflexivity |].
  split; [exact Hread | apply Hthrow; reflexivity].
Defined.

(** ** What the reader does on any raster *)

Lemma length_slice_le {A : Type} (l : list A) (a b : Z) :
  Z.of_nat (List.length (Js.slice l a b))
  <= Z.max 0 (Js.clampIndex (Z.of_nat (List.length l)) b
              - Js.clampIndex (Z.of_nat (List.length l)) a).
Proof. unfold Js.slice. rewrite length_firstn. lia. Qed.

Lemma length_slice_le_length {A : Type} (l : list A) (a b : Z) :
  (List.length (Js.slice l a b) <= List.length l)%nat.
Proof. unfold Js.slice. rewrite length_firstn, length_skipn. lia. Qed.

Lemma length_mainColors_le {A : Type} (colors : list A) (blockCount blockCountX : Z) :
  0 <= blockCount -> 0 <= blockCountX ->
  Z.of_nat (List.length colors) = blockCount + 5 ->
  Z.of_nat (List.length (mainColors colors blockCount blockCountX)) <= 2 * blockCount + 5.
Proof.
  intros Hn Hc Hlen. unfold mainColors.
  destruct (Z.ltb_spec (blockCount + 4) blockCountX) as [Hrow|Hrow].
  - pose proof (length_slice_le colors 4 (4 + blockCount)) as H.
    unfold Js.clampIndex in H. rewrite Hlen in H.
    replace (4 <? 0) with false in H by reflexivity.
    replace (4 + blockCount <? 0) with false in H by (symmetry; apply Z.ltb_ge; lia).
    lia.
  - rewrite length_app, Nat2Z.inj_add.
    pose proof (length_slice_le colors 4 (blockCountX - 1)) as H.
    unfold Js.clampIndex in H. rewrite Hlen in H.
    replace (4 <? 0) with false in H by reflexivity.
    pose proof (length_slice_le_length colors blockCountX (Z.of_nat (List.length colors))) as H'.
    unfold Js.sliceFrom.
    destruct (Z.ltb_spec (blockCountX - 1) 0); lia.
Qed.

(** X22. Whatever the raster, [readColorByteCode] returns at most 8195
    pixels, so that the text handed to the decoder has at most 8195
    characters: the header can announce no more than 4095 blocks. *)
Theorem reader_is_bounded (imageData : ImageData.t) :
  Z.of_nat (List.length (readColorByteCode imageData)) <= 8195
  /\ Z.of_nat (String.length (colorsToBase64String (readColorByteCode imageData))) <= 8195.
Proof.
  assert (H : Z.of_nat (List.length (readColorByteCode imageData)) <= 8195).
  { unfold readColorByteCode.
    set (lNum := colorToNum _). set (rNum := colorToNum _).
    set (sample := sampleBlock imageData (lNum * 64 + rNum)).
    cbn [map nth fst snd].
    set (c2 := colorToNum _). set (c3 := colorToNum _).
    pose proof (colorToNum_bounds (getPixelColor imageData 0
                  (inject_Z (ImageData.height imageData) - 1))) as Hl.
    fold lNum in Hl.
    assert (Hr : 0 <= rNum <= 63) by apply colorToNum_bounds.
    assert (H2 : 0 <= c2 <= 63) by apply colorToNum_bounds.
    assert (H3 : 0 <= c3 <= 63) by apply colorToNum_bounds.
    match goal with
    | |- Z.of_nat (List.length (mainColors ?colors _ _)) <= _ =>
        pose proof (length_mainColors_le colors (c2 + c3 * 64) (lNum * 64 + rNum)
                      ltac:(lia) ltac:(lia)) as Hcut
    end.
    rewrite length_map, length_range in Hcut.
    specialize (Hcut ltac:(lia)). lia. }
  split; [exact H|].
  assert (Hlen : forall colors,
             String.length (colorsToBase64String colors) = List.length colors).
  { induction colors as [|p colors IH]; [reflexivity|].
    rewrite colorsToBase64String_cons.
    destruct (numToBase64Char_symbol (colorToNum p) (colorToNum_bounds p)) as (c & -> & _).
    cbn [appendChar String.append String.length List.length]. now rewrite IH. }
  now rewrite Hlen.
Qed.

(** ** Reads outside the buffer *)

(** X23. [getPixelColor] does not check its coordinates against the raster:
    they are rounded, a column past the right edge reads from the next row,
    and a flat index that is negative or past the end of the buffer gives an
    undefined pixel instead of a failure. *)
Theorem getPixelColor_has_no_bounds_check (this : ImageData.t) :
  (forall x y : Q,
      getPixelColor this x y = getPixelColor this (inject_Z (round x)) (inject_Z (round y)))
  /\ (forall x y : Z,
        getPixelColor this (inject_Z (x + ImageData.width this)) (inject_Z y)
        = getPixelColor this (inject_Z x) (inject_Z (y + 1)))
  /\ (forall x y : Q,
        let index := (round x + round y * ImageData.width this) * 4 in
        index < 0 \/ Z.of_nat (List.length (ImageData.data this)) <= index ->
        getPixelColor this x y = (None, None, None)).
Proof.
  split; [|split].
  - intros x y. unfold getPixelColor. now rewrite !round_Z.
  - intros x y. unfold getPixelColor. rewrite !round_Z.
    replace ((x + ImageData.width this + y * ImageData.width this) * 4)
      with ((x + (y + 1) * ImageData.width this) * 4) by lia.
    reflexivity.
  - intros x y index Hout. unfold getPixelColor. fold index. unfold Js.index.
    destruct Hout as [Hneg|Hpast].
    1: assert (Hfour : index <= -4) by (unfold index in *; lia).
    + replace (index <? 0) with true by (symmetry; apply Z.ltb_lt; lia).
      replace (index + 1 <? 0) with true by (symmetry; apply Z.ltb_lt; lia).
      replace (index + 2 <? 0) with true by (symmetry; apply Z.ltb_lt; lia).
      reflexivity.
    + replace (index <? 0) with false by (symmetry; apply Z.ltb_ge; lia).
      replace (index + 1 <? 0) with false by (symmetry; apply Z.ltb_ge; lia).
      replace (index + 2 <? 0) with false by (symmetry; apply Z.ltb_ge; lia).
      rewrite !(proj2 (nth_error_None _ _)) by lia. reflexivity.
Qed.

Lemma getPixelColor_has_no_bounds_check_witness :
  let this := ImageData.mk 2 1 [0; 0; 0; 255; 10; 20; 30; 255] in
  getPixelColor this 1 1 = (None, None, None).
Proof.
  intros this.
  apply (proj2 (proj2 (getPixelColor_has_no_bounds_check this)) 1%Q 1%Q).
  right. vm_compute. discriminate.
Defined.

(** ** Blocks per row *)



(** ** The reader returns what the header announces *)



